(** * Sound source localization: a shallow embedding of
      scripts/sound_source_localization.py and its specification.

    Python floats are idealised as real numbers (rounding is not modelled),
    exceptions are values of [exn] carried by the [outcome] monad, and the
    instance attributes of [SoundSourceLocation] are a record that the
    methods receive (and, for the generator, return). *)

From Stdlib Require Import Reals Lra ZArith String List DecimalString DecimalNat.
From stdpp Require Import base list strings gmap.

(** ** Exceptions and outcomes *)

Inductive exn : Type :=
| ValueError (msg : string)
| TypeError (msg : string)
| NameError (msg : string)
| AttributeError (msg : string)
| IndexError (msg : string)
| ZeroDivisionError (msg : string).

Inductive outcome (A : Type) : Type :=
| Return (a : A)
| Raise (e : exn).
Arguments Return {A} a.
Arguments Raise {A} e.

#[global] Instance outcome_ret : MRet outcome := λ A a, Return a.
#[global] Instance outcome_bind : MBind outcome := λ A B f m,
  match m with
  | Return a => f a
  | Raise e => Raise e
  end.
#[global] Instance outcome_fmap : FMap outcome := λ A B f m,
  match m with
  | Return a => Return (f a)
  | Raise e => Raise e
  end.

Definition raises {A} (m : outcome A) : Prop :=
  match m with Raise _ => True | Return _ => False end.

(** The error kinds of the specification, in terms of the Python classes the
    code raises: malformed input is a [ValueError] or a [TypeError], an
    unknown source/cycle key is a [NameError]. *)
Definition is_ValidationError (e : exn) : bool :=
  match e with
  | ValueError _ | TypeError _ => true
  | _ => false
  end.

Definition is_NotFoundError (e : exn) : bool :=
  match e with
  | NameError _ => true
  | _ => false
  end.

Definition raises_ValidationError {A} (m : outcome A) : Prop :=
  match m with Raise e => is_ValidationError e = true | Return _ => False end.

Definition raises_NotFoundError {A} (m : outcome A) : Prop :=
  match m with Raise e => is_NotFoundError e = true | Return _ => False end.

(** ** Python values *)

(** A Python scalar as it occurs as a coordinate, a sample or a name. *)
Inductive scalar : Type :=
| PyNone
| PyFloat (x : R)
| PyInt (n : Z)
| PyStr (s : string).

(** An entry of a list of microphone locations: [None] or a list
    [[x, y, z]] of coordinates. *)
Inductive location : Type :=
| NoLocation
| Coords (cs : list scalar).

Definition is_None (s : scalar) : bool :=
  match s with PyNone => true | _ => false end.

(** [isinstance(s, float)] *)
Definition isinstance_float (s : scalar) : bool :=
  match s with PyFloat _ => true | _ => false end.

(** A coordinate is numeric when it is a float or an int. *)
Definition is_numeric (s : scalar) : bool :=
  match s with PyFloat _ | PyInt _ => true | _ => false end.

(** [s == ""] *)
Definition is_empty_str (s : scalar) : bool :=
  match s with PyStr EmptyString => true | _ => false end.

(** [not l] for a list *)
Definition py_not {A} (l : list A) : bool :=
  match l with [] => true | _ => false end.

(** [str(n)] for a natural number *)
Definition str (n : nat) : string := NilZero.string_of_uint (Nat.to_uint n).

(** ** scripts/utils.py *)

(** Modelled from the spec: scripts/utils.py is not among the sources.
    The nested lists and tuples that [convert_to_one_list] flattens are
    told apart by their type: a scalar is a leaf, a list contributes the
    leaves of its elements in order, a [None] in place of a location is a
    leaf. *)
Class Flatten (A : Type) := to_one_list : A → list scalar.

#[global] Instance scalar_flatten : Flatten scalar := λ s, [s].
#[global] Instance list_flatten `{Flatten A} : Flatten (list A) :=
  λ l, concat (map to_one_list l).
#[global] Instance location_flatten : Flatten location := λ l,
  match l with
  | NoLocation => [PyNone]
  | Coords cs => to_one_list cs
  end.

(** Modelled from the spec: scripts/utils.py (convert_to_one_list,
    check_list_of_lists_are_same_length, ThreadWithReturnValue) is not among
    the sources.  [convert_to_one_list] turns a nesting of lists into the one
    list of its leaves: the specification has the callers fail when the
    input is empty or contains a null anywhere. *)
Definition convert_to_one_list `{Flatten A} (x : list A) : list scalar :=
  to_one_list x.

Definition location_len (l : location) : nat :=
  match l with
  | NoLocation => 0
  | Coords cs => length cs
  end.

(** Modelled from the spec: scripts/utils.py is not among the sources.
    [check_list_of_lists_are_same_length] holds when the sub-lists (the
    locations) of the input all have the same length; the specification has
    [centroid] fail on locations of inconsistent dimensionality. *)
Definition check_list_of_lists_are_same_length (args : list (list location)) : bool :=
  match concat args with
  | [] => true
  | l0 :: ls => forallb (λ l, Nat.eqb (location_len l) (location_len l0)) ls
  end.

(** ** Geometry utilities *)

Definition x_locations : list R := [-0.102235; -0.052197; -0.027304]%R.
Definition y_locations : list R := [-0.109982]%R.
Definition z_locations : list R := [0.056388; 0.001524; -0.053340; -0.108204]%R.

(** [[x, y, z] for x in x_locations for y in y_locations for z in z_locations] *)
Definition create_microphone_locations_list : list (list R) :=
  x ← x_locations; y ← y_locations; z ← z_locations; [[x; y; z]].

Definition float_of (s : scalar) : option R :=
  match s with PyFloat x => Some x | _ => None end.

(** [np.array(locs)] for a list of equally long lists of floats *)
Definition np_array (locs : list location) : option (list (list R)) :=
  mapM (λ l, match l with
             | Coords cs => mapM float_of cs
             | NoLocation => None
             end) locs.

(** [np.sum(a, axis=0)]: the rows are added up from the first one on. *)
Definition np_sum_axis0 (rows : list (list R)) : list R :=
  match rows with
  | [] => []
  | r :: rs => foldl (zip_with Rplus) r rs
  end.

(** [get_centroid] called with the one positional argument [locs], as
    [get_estimates] does: [args] is the 1-tuple of it, the only shape that
    [np.array] and [len] accept when [args] is unpacked into them. *)
Definition get_centroid (locs : list location) : outcome (list R) :=
  let args := [locs] in
  if py_not (convert_to_one_list args) then
    Raise (ValueError "Error. Microphone location list is empty.")
  else if existsb is_None (convert_to_one_list args) then
    Raise (ValueError "Error. Microphone location list contains None.")
  else if negb (check_list_of_lists_are_same_length args) then
    Raise (ValueError "Error. Not all microphone locations have same length!")
  else if negb (forallb isinstance_float (convert_to_one_list args)) then
    Raise (TypeError "Error. Microphone location list does not contain a float type.")
  else
    match np_array locs with
    | Some microphone_array =>
        Return (map (λ s, s / INR (length locs))%R (np_sum_axis0 microphone_array))
    | None => (* not reached: only lists of floats pass the checks above *)
        Raise (TypeError "Error. Microphone location list does not contain a float type.")
    end.

(** ** The object *)

(** The value given for [recovered]: a Python bool, or anything else (kept
    by its printed form, which is all the code uses of it). *)
Inductive flag : Type :=
| Bool (b : bool)
| NotBool (shown : string).

Record SoundSourceLocation : Type := {
  filepath : string;
  algo_name : string;
  num_sources : Z;
  recovered : flag;
  transform : bool;
  sound_speed : Z;
  combinations_number : Z;
  fs : Z;
  fft_size : Z;
  freq_range : list Z;
  tol : R;
  radius : list R;
  s1_bool : bool
}.

(** [np.arange(0, stop, step)] with its [n = ceil(stop / step)] entries
    [0 + i * step]. *)
Definition np_arange (n : nat) (step : R) : list R :=
  map (λ i, 0 + INR i * step)%R (seq 0 n).

(** [__init__]; the radius grid [np.arange(0, 0.5, 1e-3)] has
    [ceil(0.5 / 1e-3) = 500] entries, kept as the column they are reshaped
    to by [[:, np.newaxis]]. *)
Definition init (filepath algo_name : string) (num_sources : Z)
    (recovered : flag) (transform : bool) : SoundSourceLocation :=
  {| filepath := filepath;
     algo_name := algo_name;
     num_sources := num_sources;
     recovered := recovered;
     transform := transform;
     sound_speed := 30;
     combinations_number := 3;
     fs := 16000;
     fft_size := 256;
     freq_range := [0; 250]%Z;
     tol := 0.001%R;
     radius := np_arange 500 0.001%R;
     s1_bool := true |}.

Definition set_s1_bool (self : SoundSourceLocation) (b : bool) : SoundSourceLocation :=
  {| filepath := filepath self;
     algo_name := algo_name self;
     num_sources := num_sources self;
     recovered := recovered self;
     transform := transform self;
     sound_speed := sound_speed self;
     combinations_number := combinations_number self;
     fs := fs self;
     fft_size := fft_size self;
     freq_range := freq_range self;
     tol := tol self;
     radius := radius self;
     s1_bool := b |}.

(** [self.combinations_number = k], an assignment from outside the class. *)
Definition set_combinations_number (self : SoundSourceLocation) (k : Z)
    : SoundSourceLocation :=
  {| filepath := filepath self;
     algo_name := algo_name self;
     num_sources := num_sources self;
     recovered := recovered self;
     transform := transform self;
     sound_speed := sound_speed self;
     combinations_number := k;
     fs := fs self;
     fft_size := fft_size self;
     freq_range := freq_range self;
     tol := tol self;
     radius := radius self;
     s1_bool := s1_bool self |}.

(** ** Signal access layer *)

(** A numpy array of one or of two dimensions, by its cells. *)
Inductive ndarray : Type :=
| Array1 (cells : list scalar)
| Array2 (rows : list (list scalar)).

(** What iterating over an array (or [tolist()]) gives: the cells of a
    one-dimensional array, the rows of a two-dimensional one. *)
Inductive row : Type :=
| Sample (c : scalar)
| Signal (cs : list scalar).

Definition tolist (data : ndarray) : list row :=
  match data with
  | Array1 cells => map Sample cells
  | Array2 rows => map Signal rows
  end.

(** [data.size] *)
Definition np_size (data : ndarray) : nat :=
  match data with
  | Array1 cells => length cells
  | Array2 rows => length (concat rows)
  end.

(** [len(data)] *)
Definition len (data : ndarray) : nat := length (tolist data).

(** [None in data.tolist()]: an element of the list is [None] itself. *)
Definition None_in_tolist (data : ndarray) : bool :=
  existsb (λ r, match r with Sample PyNone => true | _ => false end) (tolist data).

(** [None in data]: numpy compares cell by cell. *)
Definition None_in (data : ndarray) : bool :=
  match data with
  | Array1 cells => existsb is_None cells
  | Array2 rows => existsb (existsb is_None) rows
  end.

(** ["" in data.tolist()]: an element of the list is the empty string. *)
Definition empty_str_in_tolist (data : ndarray) : bool :=
  existsb (λ r, match r with Sample c => is_empty_str c | Signal _ => false end)
          (tolist data).

(** A dict comprehension: later items replace earlier ones with the same key. *)
Definition dict_of `{Countable K} {V} (items : list (K * V)) : gmap K V :=
  foldl (λ m kv, <[kv.1 := kv.2]> m) ∅ items.

(** [range(a, b)] *)
Definition range (a b : nat) : list nat := seq a (b - a).

Definition newline : string := String (Ascii.ascii_of_nat 10) EmptyString.

(** The dictionary of [get_sound_data]: cycle name to file path (relative to
    [filepath]) and key inside the file. *)
Definition source_name_dict (recovered : bool) : gmap string (string * string) :=
  if recovered then
    dict_of (x ← range 1 3; y ← range 0 24;
             [("S" +:+ str x +:+ "_Cycle" +:+ str y,
               ("Recovered_S" +:+ str x +:+ "/S" +:+ str x +:+ "_Cycle" +:+ str y,
                "S" +:+ str x))])
  else
    dict_of (x ← range 1 3; y ← range 0 24;
             [("S" +:+ str x +:+ "_Cycle" +:+ str y,
               ("S" +:+ str x +:+ "/S" +:+ str x +:+ "_Cycle" +:+ str y,
                "S" +:+ str x))]).

Section SignalStore.

(** The recorded-signal store: [sio.loadmat] maps a path to the variables
    of the file, or raises. *)
Variable loadmat : string → outcome (gmap string ndarray).

(** [get_sound_data]; the result is [None] when the file lacks the key. *)
Definition get_sound_data (self : SoundSourceLocation) (name_of_source : string)
    : outcome (option ndarray) :=
  match recovered self with
  | NotBool shown =>
      Raise (TypeError ("recovered is supposed to be a boolean." +:+ newline
                        +:+ " " +:+ shown +:+ " is not a boolean."))
  | Bool recovered =>
      let source_name_dict := source_name_dict recovered in
      match source_name_dict !! name_of_source with
      | None => Raise (NameError (name_of_source +:+ " name not in cycle list"))
      | Some (path, key) =>
          let full_data_file_path := filepath self +:+ path in
          data ← loadmat full_data_file_path;
          Return (data !! key)
      end
  end.

End SignalStore.

(** What [get_mic_match_with_sound_data] returns: the pair
    [(signal_list, mic_location)], or a string. *)
Inductive mic_match : Type :=
| Matched (signal_list : list row) (mic_location : list (list R))
| Message (s : string).

Definition mismatch_message : string :=
  "Error. Mismatch in length of microphone location list and length of signal list.".

(** [get_mic_match_with_sound_data(data, *args)] for microphone names [args]. *)
Definition get_mic_match_with_sound_data (data : ndarray) (args : list string)
    : outcome mic_match :=
  if py_not (tolist data) || (Nat.eqb (np_size data) 1 && None_in_tolist data) then
    Raise (ValueError "Error. The signal is empty.")
  else if None_in data then
    Raise (ValueError "Error. The signal contains None.")
  else if empty_str_in_tolist data then
    Raise (ValueError "Error. The signal contains an empty string.")
  else if py_not (convert_to_one_list (map PyStr args)) then
    Raise (ValueError "Error. Microphone list is empty.")
  else
    let all_microphone_locations := create_microphone_locations_list in
    if Nat.eqb (length all_microphone_locations) (len data) then
      let all_microphone_locations_and_data :=
        zip all_microphone_locations (tolist data) in
      let microphones_locations_and_signals_dict :=
        dict_of (imap (λ j v, ("mic" +:+ str (j + 1), v))
                      all_microphone_locations_and_data) in
      let '(signal_list, mic_location) :=
        foldl (λ '(signal_list, mic_location) arg,
                 match microphones_locations_and_signals_dict !! arg with
                 | Some (loc, sig) => (signal_list ++ [sig], mic_location ++ [loc])
                 | None => (signal_list, mic_location)
                 end) ([], []) args in
      Return (Matched signal_list mic_location)
    else
      Return (Message mismatch_message).

(** ** Estimate generator *)

(** A row of an N x 3 array. *)
Definition vec3 : Type := R * R * R.

Definition scale (r : R) (u : vec3) : vec3 :=
  let '(x, y, z) := u in (r * x, r * y, r * z)%R.

Definition vadd (u c : vec3) : vec3 :=
  let '(x, y, z) := u in
  let '(cx, cy, cz) := c in (x + cx, y + cy, z + cz)%R.

(** [radius * part] for the (N, 1) column [radius] and the (g, 3) array
    [part], by numpy's broadcasting: the row counts have to be equal unless
    one of them is 1. *)
Definition broadcast_mul (radius : list R) (part : list vec3) : outcome (list vec3) :=
  match part, radius with
  | [u], _ => Return (map (λ r, scale r u) radius)
  | _, [r] => Return (map (scale r) part)
  | _, _ =>
      if Nat.eqb (length radius) (length part) then Return (zip_with scale radius part)
      else Raise (ValueError "operands could not be broadcast together")
  end.

(** [rows + np.array(the_centroid)[np.newaxis, :]]: a centroid of three
    coordinates is added to every row, one of a single coordinate to every
    cell, any other length does not broadcast against three columns. *)
Definition add_centroid (rows : list vec3) (the_centroid : list R) : outcome (list vec3) :=
  match the_centroid with
  | [cx; cy; cz] => Return (map (λ u, vadd u (cx, cy, cz)) rows)
  | [c] => Return (map (λ u, vadd u (c, c, c)) rows)
  | _ => Raise (ValueError "operands could not be broadcast together")
  end.

(** [l[a:b]] *)
Definition slice {A} (a b : nat) (l : list A) : list A := take (b - a) (drop a l).

(** [l[i]] *)
Definition index {A} (l : list A) (i : nat) : outcome A :=
  match l !! i with
  | Some x => Return x
  | None => Raise (IndexError "list index out of range")
  end.

(** [np.vsplit(ary, sections)] on the rows of [ary]. *)
Definition np_vsplit {A} (ary : list A) (sections : Z) : outcome (list (list A)) :=
  if (sections =? 0)%Z then
    Raise (ZeroDivisionError "integer division or modulo by zero")
  else if negb (Z.of_nat (length ary) mod sections =? 0)%Z then
    Raise (ValueError "array split does not result in an equal division")
  else if (sections <? 0)%Z then
    Raise (ValueError "number sections must be larger than 0.")
  else
    let n := Z.to_nat sections in
    let g := (length ary / n)%nat in
    Return (map (λ i, slice (i * g) ((i + 1) * g) ary) (range 0 n)).

(** A [for] loop over [idx] whose body updates the state or raises. *)
Fixpoint for_each {S} (idx : list nat) (body : nat → S → outcome S) (s : S) : outcome S :=
  match idx with
  | [] => Return s
  | i :: idx => s' ← body i s; for_each idx body s'
  end.

(** [split_and_conquer]; [cartesian_arr] is a numpy array by its type, and
    is given by its columns, that is, by the rows of [cartesian_arr.T]. *)
Definition split_and_conquer (self : SoundSourceLocation) (the_centroid : list R)
    (cartesian_arr : list vec3) : outcome (list vec3) :=
  array_split ← np_vsplit cartesian_arr (num_sources self);
  array_split ← for_each (range 0 (Z.to_nat (num_sources self)))
    (λ i array_split,
       part ← index array_split i;
       scaled ← broadcast_mul (radius self) part;
       moved ← add_centroid scaled the_centroid;
       Return (<[i := moved]> array_split))
    array_split;
  Return (concat array_split).

(** The unit direction of an (azimuth, co-latitude) pair. *)
Definition direction (angles : R * R) : vec3 :=
  let '(azimuth, colatitude) := angles in
  (cos azimuth * sin colatitude, sin azimuth * sin colatitude, cos colatitude)%R.

(** The matched locations as the Python list of lists of floats they are. *)
Definition as_locations (mic_locations : list (list R)) : list location :=
  map (λ l, Coords (map PyFloat l)) mic_locations.

(** Modelled from the spec: scripts/utils.py is not among the sources.
    [ThreadWithReturnValue(target, args)], started and joined: the join
    gives what the target returns, and a failing worker fails the cycle. *)
Definition thread_join {A} (target : outcome A) : outcome A := target.

(** [itertools.combinations(pool, r)] *)
Fixpoint combinations_nat {A} (pool : list A) (r : nat) : list (list A) :=
  match r, pool with
  | O, _ => [[]]
  | S _, [] => []
  | S r', x :: pool' => map (cons x) (combinations_nat pool' r') ++ combinations_nat pool' r
  end.

Definition combinations {A} (pool : list A) (r : Z) : outcome (list (list A)) :=
  if (r <? 0)%Z then Raise (ValueError "r must be non-negative")
  else Return (combinations_nat pool (Z.to_nat r)).

(** [np.array(outputs_list)] for a list of (P, 3) arrays, and the two
    further dimensions the reshape reads from its shape. *)
Definition np_array3 (outputs_list : list (list vec3)) : outcome (list (list vec3)) :=
  match outputs_list with
  | [] => Raise (IndexError "tuple index out of range")
  | a :: rest =>
      if forallb (λ b, Nat.eqb (length b) (length a)) rest then Return outputs_list
      else Raise (ValueError "setting an array element with a sequence.")
  end.

Definition room_dim : vec3 := (0.34925, 0.219964, 0.2413)%R.
Definition center_of_room : vec3 :=
  let '(w, d, l) := room_dim in (w / 2, d / 2, l / 2)%R.

(** The microphone pool of the source that is looked for. *)
Definition mics (self : SoundSourceLocation) : list string :=
  if s1_bool self then map (λ i, "mic" +:+ str i) [2; 3; 6; 7; 10; 11]
  else map (λ i, "mic" +:+ str i) [1; 2; 5; 6; 9; 10].

Definition cycles : list string := map (λ i, "Cycle" +:+ str i) (range 0 24).
Definition sound_sources : list string := map (λ i, "S" +:+ str i) (range 1 3).
Definition sound_list : list string :=
  sound_source ← sound_sources; cycle ← cycles; [sound_source +:+ "_" +:+ cycle].
Definition s2_cycle_names : list string :=
  map (λ j, ("S2" +:+ "_" +:+ "Cycle") +:+ str j) (range 0 24).

(** What one [next()] on a generator gives. *)
Inductive step_result (A : Type) : Type :=
| Yield (a : A)
| StopIteration
| Raised (e : exn).
Arguments Yield {A} a.
Arguments StopIteration {A}.
Arguments Raised {A} e.

Section Estimates.

(** The DOA estimation adapter [difference_of_arrivals] with the STFT and
    the solver of pyroomacoustics behind it: from the object, the signals
    and the microphone locations to the recovered angles, one (azimuth,
    co-latitude) pair per located source, or an exception. *)
Variable difference_of_arrivals :
  SoundSourceLocation → list row → list (list R) → outcome (list (R * R)).

Variable loadmat : string → outcome (gmap string ndarray).

(** [get_estimates(sound_data, *mic_split)]; the names are strings, so
    none of them is [None]; [sound_data] is [None] when the file read by
    [get_sound_data] lacks the key. *)
Definition get_estimates (self : SoundSourceLocation) (sound_data : option ndarray)
    (mic_split : list string) : outcome (list vec3) :=
  if py_not mic_split then Raise (ValueError "Error. Mic split list is empty.")
  else
    match sound_data with
    | None => Raise (AttributeError "'NoneType' object has no attribute 'tolist'")
    | Some sound_data =>
        matched ← get_mic_match_with_sound_data sound_data mic_split;
        match matched with
        | Message _ => Raise (ValueError "too many values to unpack (expected 2)")
        | Matched signal mic_locations =>
            centroid ← get_centroid (as_locations mic_locations);
            angles ← difference_of_arrivals self signal mic_locations;
            let cartesian_coordinates := map direction angles in
            if (1 <? num_sources self)%Z then
              split_and_conquer self centroid cartesian_coordinates
            else
              scaled ← broadcast_mul (radius self) cartesian_coordinates;
              add_centroid scaled centroid
        end
    end.

(** ** Combination scheduler *)

Definition process_potential_estimates (self : SoundSourceLocation)
    (all_sound_data : option ndarray) : outcome (list vec3) :=
  mic_list ← combinations (mics self) (combinations_number self);
  let splits := (length mic_list / 5)%nat in
  if Nat.eqb splits 0 then
    Raise (ZeroDivisionError "integer division or modulo by zero")
  else
    let mic_split_list :=
      map (λ i, slice (i * splits) ((i + 1) * splits) mic_list)
          (range 0 ((length mic_list + splits - 1) / splits)) in
    outputs_list ← for_each (range 0 splits)
      (λ j outputs_list,
         split1 ← (chunk ← index mic_split_list 0; index chunk j);
         split2 ← (chunk ← index mic_split_list 1; index chunk j);
         split3 ← (chunk ← index mic_split_list 2; index chunk j);
         split4 ← (chunk ← index mic_split_list 3; index chunk j);
         split5 ← (chunk ← index mic_split_list 4; index chunk j);
         estimate_1 ← thread_join (get_estimates self all_sound_data split1);
         estimate_2 ← thread_join (get_estimates self all_sound_data split2);
         estimate_3 ← thread_join (get_estimates self all_sound_data split3);
         estimate_4 ← thread_join (get_estimates self all_sound_data split4);
         estimate_5 ← thread_join (get_estimates self all_sound_data split5);
         Return (outputs_list ++ [estimate_1; estimate_2; estimate_3;
                                  estimate_4; estimate_5]))
      [];
    all_estimates ← np_array3 outputs_list;
    let potential_sources := concat all_estimates in
    Return (map (vadd center_of_room) potential_sources).

(** The generator of [generate_potential_sources]: the names it still has
    to go through.  It shares the object with its caller and with any
    other generator of the same object. *)
Definition generator : Type := list string.

(** [generate_potential_sources()]: nothing runs before the first [next]. *)
Definition generate_potential_sources : generator := sound_list.

(** One [next(g)]: the object and the generator afterwards, and what the
    caller gets.  A generator that raised is finished. *)
Definition next (self : SoundSourceLocation) (g : generator)
    : SoundSourceLocation * generator * step_result (string * list vec3) :=
  match g with
  | [] => (self, [], StopIteration)
  | source_name :: rest =>
      let self :=
        if bool_decide (source_name ∈ s2_cycle_names) then set_s1_bool self false
        else self in
      match
        sound_data_of_interest ← get_sound_data loadmat self source_name;
        process_potential_estimates self sound_data_of_interest
      with
      | Return points => (self, rest, Yield (source_name, points))
      | Raise e => (self, [], Raised e)
      end
  end.

(** What the body of the generator's loop computes for one name. *)
Definition visit (self : SoundSourceLocation) (name : string) : outcome (list vec3) :=
  sound_data_of_interest ← get_sound_data loadmat self name;
  process_potential_estimates self sound_data_of_interest.

(** [list(g)]: the pairs yielded until the generator stops or raises. *)
Fixpoint drain (fuel : nat) (self : SoundSourceLocation) (g : generator)
    : SoundSourceLocation * list (string * list vec3) * option exn :=
  match fuel with
  | O => (self, [], None)
  | S fuel =>
      match next self g with
      | (self, g, Yield item) =>
          let '(self, items, e) := drain fuel self g in (self, item :: items, e)
      | (self, _, StopIteration) => (self, [], None)
      | (self, _, Raised e) => (self, [], Some e)
      end
  end.

(** A generator has a [StopIteration] or an exception after at most as
    many yields as it has names left. *)
Definition list_of (self : SoundSourceLocation) (g : generator)
    : SoundSourceLocation * list (string * list vec3) * option exn :=
  drain (S (length g)) self g.

(** [run] *)
Definition run (self : SoundSourceLocation) : outcome (list string * list vec3) :=
  let cycles_of_interest := take 2 cycles in
  match sound_sources with
  | [] => Raise (IndexError "list index out of range")
  | sound_source_of_interest :: _ =>
      let sound_source_cycle_of_interest :=
        map (λ cycle, sound_source_of_interest +:+ "_" +:+ cycle) cycles_of_interest in
      name ← index sound_source_cycle_of_interest 0;
      data ← get_sound_data loadmat self name;
      the_estimates ← process_potential_estimates self data;
      Return (sound_source_cycle_of_interest, the_estimates)
  end.

End Estimates.

(** ** The vocabulary of the specification *)

(** The input of [centroid] has no coordinate at all: it is the empty list,
    or a list of empty locations. *)
Definition has_no_coordinates (locs : list location) : Prop :=
  Forall (λ l, l = Coords []) locs.

(** The input contains a null: a location that is [None], or a [None]
    among the coordinates of a location. *)
Definition contains_None (locs : list location) : Prop :=
  NoLocation ∈ locs ∨ ∃ cs, Coords cs ∈ locs ∧ PyNone ∈ cs.

(** The input contains sub-lists of differing lengths. *)
Definition differing_lengths (locs : list location) : Prop :=
  ∃ cs1 cs2, Coords cs1 ∈ locs ∧ Coords cs2 ∈ locs ∧ length cs1 ≠ length cs2.

(** The input contains a coordinate on which [ok] fails. *)
Definition has_coordinate_not (ok : scalar → bool) (locs : list location) : Prop :=
  ∃ cs c, Coords cs ∈ locs ∧ c ∈ cs ∧ ok c = false.

(** The arithmetic mean of a list of numbers. *)
Definition mean (xs : list R) : R := (fold_right Rplus 0 xs / INR (length xs))%R.

(** The [j]-th coordinates of a group of locations. *)
Definition column (j : nat) (rows : list (list R)) : list R :=
  map (λ r, nth j r 0%R) rows.

(** The coordinate-wise mean of a group of locations of [n] coordinates. *)
Definition coordinatewise_mean (n : nat) (rows : list (list R)) : list R :=
  map (λ j, mean (column j rows)) (seq 0 n).

(** The identifiers of the twelve microphones, in the order of the layout
    and of the rows of a signal matrix. *)
Definition mic_name (k : nat) : string := "mic" +:+ str k.
Definition known_names : list string := map mic_name (seq 1 12).

(** The position (from 0) of a known identifier, [None] for any other name. *)
Definition mic_position (name : string) : option nat :=
  fst <$> list_find (λ n, n = name) known_names.

(** The signal row and the location that belong to a name. *)
Definition signal_for (data : ndarray) (name : string) : option row :=
  i ← mic_position name; tolist data !! i.
Definition location_for (name : string) : option (list R) :=
  i ← mic_position name; create_microphone_locations_list !! i.

(** A signal matrix that is not empty and has neither a [None] nor an
    empty-string row. *)
Definition clean (data : ndarray) : Prop :=
  tolist data ≠ [] ∧ None_in data = false ∧ empty_str_in_tolist data = false.

(** A signal matrix of twelve one-sample rows, the sample of row [i]
    (from 1) being the int [i]. *)
Definition twelve_rows : ndarray :=
  Array2 (map (λ i, [PyInt (Z.of_nat i)]) (seq 1 12)).

(** The names of {S1, S2} x {0 .. 23}. *)
Definition cycle_name (source cycle : nat) : string :=
  "S" +:+ str source +:+ "_Cycle" +:+ str cycle.
Definition known_cycle_names : list string :=
  source ← [1; 2]; cycle ← seq 0 24; [cycle_name source cycle].

(** The radius sweep of one unit vector: every radius value times the
    vector, plus the centroid; one point per radius value. *)
Definition sweep (radius : list R) (centroid u : vec3) : list vec3 :=
  map (λ r, vadd (scale r u) centroid) radius.

(** A stand-in for the DOA adapter that always recovers the one direction
    of the given angles. *)
Definition doa_constant (azimuth colatitude : R)
    : SoundSourceLocation → list row → list (list R) → outcome (list (R * R)) :=
  λ _ _ _, Return [(azimuth, colatitude)].

(** The order of dispatch: round [j] (of 4) takes the [j]-th subset of
    each of the 5 batches, batch [b] being the subsets [4 b .. 4 b + 3]. *)
Definition round_major {A} (mic_list : list A) : list A :=
  j ← seq 0 4; b ← seq 0 5; option_list (mic_list !! (4 * b + j)).

(** A subset as the unordered set of its microphones. *)
Definition as_set (subset : list string) : gset string := list_to_set subset.

(** The estimates of the subsets of [order], one array after the other,
    moved by the centre of the room. *)
Definition estimates_in_order (worker : list string → outcome (list vec3))
    (order : list (list string)) : outcome (list vec3) :=
  outputs ← mapM worker order;
  all_estimates ← np_array3 outputs;
  Return (map (vadd center_of_room) (concat all_estimates)).

(** An object whose [combinations_number] was set to 5 after its creation:
    the 6 microphones of a pool then have 6 subsets. *)
Definition five_of_six : SoundSourceLocation :=
  set_combinations_number (init "data/" "MUSIC" 1 (Bool false) false) 5.

(** The object as one [next] leaves it once it has looked at [name]. *)
Definition flag_after (self : SoundSourceLocation) (name : string) : SoundSourceLocation :=
  if bool_decide (name ∈ s2_cycle_names) then set_s1_bool self false else self.

(** A signal store that has the twelve-row matrix under both keys of every
    file. *)
Definition loadmat_twelve : string → outcome (gmap string ndarray) :=
  λ _, Return {[ "S1" := twelve_rows; "S2" := twelve_rows ]}.

(** A freshly created object. *)
Definition fresh : SoundSourceLocation := init "data/" "MUSIC" 1 (Bool false) false.

(** ** Further vocabulary *)

(** The file of a cycle, relative to [filepath], and the variable that is
    read from it. *)
Definition cycle_file (recovered : bool) (source cycle : nat) : string :=
  (if recovered then "Recovered_S" else "S") +:+ str source +:+ "/"
  +:+ cycle_name source cycle.
Definition cycle_key (source : nat) : string := "S" +:+ str source.

(** A signal store without any file. *)
Definition loadmat_nothing : string → outcome (gmap string ndarray) :=
  λ path, Raise (ValueError ("no file " +:+ path)).

(** A signal store whose files hold no variable. *)
Definition loadmat_empty : string → outcome (gmap string ndarray) :=
  λ _, Return ∅.

(** Stand-ins for the DOA adapter: one that recovers the given pairs of
    angles whatever it is given, and one that always fails. *)
Definition doa_returning (angles : list (R * R))
    : SoundSourceLocation → list row → list (list R) → outcome (list (R * R)) :=
  λ _ _ _, Return angles.
Definition doa_failing (e : exn)
    : SoundSourceLocation → list row → list (list R) → outcome (list (R * R)) :=
  λ _ _ _, Raise e.

(** The squared distance of two points. *)
Definition dist2 (p c : vec3) : R :=
  let '(x, y, z) := p in
  let '(cx, cy, cz) := c in
  ((x - cx) * (x - cx) + (y - cy) * (y - cy) + (z - cz) * (z - cz))%R.

(** The order of dispatch for any number of subsets: with
    [splits = len(mic_list) // 5], round [j] (of [splits]) takes the [j]-th
    subset of each of the first 5 batches of [splits] subsets. *)
Definition dispatched {A} (mic_list : list A) : list A :=
  let splits := (length mic_list / 5)%nat in
  j ← seq 0 splits; b ← seq 0 5; option_list (mic_list !! (b * splits + j)).

(** The centroid of a group of locations, as a point. *)
Definition centroid_of (locs : list (list R)) : vec3 :=
  (mean (column 0 locs), mean (column 1 locs), mean (column 2 locs)).

(** * Properties *)

(** Case analysis on the membership [H] in a list that is given by its
    elements. *)
Ltac elem_of_cases H :=
  repeat (apply elem_of_cons in H as [H|H]); [..|by apply elem_of_nil in H].

Example centroid_one :
  get_centroid [Coords [PyFloat 1; PyFloat 2; PyFloat 3]]
  = Return [1 / 1; 2 / 1; 3 / 1]%R.
Proof. reflexivity. Qed.

Example centroid_of_nothing :
  get_centroid [] = Raise (ValueError "Error. Microphone location list is empty.")
  ∧ get_centroid [Coords []]
    = Raise (ValueError "Error. Microphone location list is empty.").
Proof. split; reflexivity. Qed.

Example centroid_of_None :
  get_centroid [Coords [PyFloat 1; PyFloat 2]; NoLocation]
  = Raise (ValueError "Error. Microphone location list contains None.")
  ∧ get_centroid [Coords [PyFloat 1; PyNone]]
    = Raise (ValueError "Error. Microphone location list contains None.").
Proof. split; reflexivity. Qed.

Example centroid_of_ragged :
  get_centroid [Coords [PyFloat 1; PyFloat 2]; Coords [PyFloat 1]]
  = Raise (ValueError "Error. Not all microphone locations have same length!").
Proof. reflexivity. Qed.

Example centroid_of_text :
  get_centroid [Coords [PyFloat 1; PyStr "x"]]
  = Raise (TypeError "Error. Microphone location list does not contain a float type.").
Proof. reflexivity. Qed.

Example layout_12 : length create_microphone_locations_list = 12.
Proof. reflexivity. Qed.

Example pool_S1 :
  mics fresh = ["mic2"; "mic3"; "mic6"; "mic7"; "mic10"; "mic11"].
Proof. reflexivity. Qed.

Example pool_S2 :
  mics (set_s1_bool fresh false) = ["mic1"; "mic2"; "mic5"; "mic6"; "mic9"; "mic10"].
Proof. reflexivity. Qed.

Example combinations_of_four :
  combinations ["a"; "b"; "c"; "d"] 2
  = Return [["a"; "b"]; ["a"; "c"]; ["a"; "d"]; ["b"; "c"]; ["b"; "d"]; ["c"; "d"]].
Proof. reflexivity. Qed.

Example forty_eight_names :
  length sound_list = 48
  ∧ sound_list !! 0 = Some "S1_Cycle0" ∧ sound_list !! 23 = Some "S1_Cycle23"
  ∧ sound_list !! 24 = Some "S2_Cycle0" ∧ sound_list !! 47 = Some "S2_Cycle23".
Proof. repeat split; reflexivity. Qed.

Example path_of_a_cycle :
  source_name_dict false !! "S2_Cycle7" = Some ("S2/S2_Cycle7", "S2")
  ∧ source_name_dict true !! "S1_Cycle0" = Some ("Recovered_S1/S1_Cycle0", "S1").
Proof. split; vm_compute; reflexivity. Qed.

Example sound_data_of_a_cycle :
  get_sound_data loadmat_twelve fresh "S2_Cycle7" = Return (Some twelve_rows).
Proof. vm_compute. reflexivity. Qed.

Example recovered_not_a_boolean :
  get_sound_data loadmat_twelve (init "data/" "MUSIC" 1 (NotBool "1") false) "S1_Cycle0"
  = Raise (TypeError ("recovered is supposed to be a boolean." +:+ newline
                      +:+ " 1 is not a boolean.")).
Proof. reflexivity. Qed.

Example signal_checks :
  get_mic_match_with_sound_data (Array2 []) ["mic1"]
  = Raise (ValueError "Error. The signal is empty.")
  ∧ get_mic_match_with_sound_data (Array1 [PyNone]) ["mic1"]
    = Raise (ValueError "Error. The signal is empty.")
  ∧ get_mic_match_with_sound_data (Array2 [[PyFloat 0; PyNone]]) ["mic1"]
    = Raise (ValueError "Error. The signal contains None.")
  ∧ get_mic_match_with_sound_data (Array1 [PyStr "a"; PyStr EmptyString]) ["mic1"]
    = Raise (ValueError "Error. The signal contains an empty string.")
  ∧ get_mic_match_with_sound_data twelve_rows []
    = Raise (ValueError "Error. Microphone list is empty.").
Proof. repeat split; reflexivity. Qed.

(** The caller of [get_mic_match_with_sound_data] unpacks the result into
    two names, which a message of another length than two does not allow. *)
Example estimates_of_a_mismatch :
  get_estimates (doa_constant 0 0) fresh (Some (Array2 [[PyFloat 0]; [PyFloat 1]]))
                ["mic1"; "mic2"]
  = Raise (ValueError "too many values to unpack (expected 2)").
Proof. reflexivity. Qed.

Example too_few_subsets :
  process_potential_estimates (doa_constant 0 0) (set_combinations_number fresh 6)
                              (Some twelve_rows)
  = Raise (ZeroDivisionError "integer division or modulo by zero").
Proof. reflexivity. Qed.

(** ** Flattening *)

Lemma to_one_list_scalars (cs : list scalar) : to_one_list cs = cs.
Proof.
  induction cs as [|c cs IH]; [done|].
  unfold to_one_list, list_flatten in *. simpl. by rewrite IH.
Qed.

Lemma to_one_list_location (l : location) :
  to_one_list l = match l with NoLocation => [PyNone] | Coords cs => cs end.
Proof. destruct l; [done|]. apply to_one_list_scalars. Qed.

Lemma convert_one_argument (locs : list location) :
  convert_to_one_list [locs] = concat (map to_one_list locs).
Proof.
  unfold convert_to_one_list, to_one_list at 1, list_flatten. simpl.
  by rewrite app_nil_r.
Qed.

Lemma elem_of_convert_one_argument (locs : list location) (c : scalar) :
  c ∈ convert_to_one_list [locs] ↔
  (c = PyNone ∧ NoLocation ∈ locs) ∨ (∃ cs, Coords cs ∈ locs ∧ c ∈ cs).
Proof.
  rewrite convert_one_argument. induction locs as [|l locs IH]; simpl.
  - split; [by intros ?%elem_of_nil|].
    intros [[_ ?%elem_of_nil]|(? & ?%elem_of_nil & _)]; done.
  - rewrite elem_of_app, IH, to_one_list_location. clear IH. split.
    + intros [Hc|[[-> H]|(cs & H & Hc)]].
      * destruct l as [|cs].
        -- apply list_elem_of_singleton in Hc as ->. left. split; [done|]. left.
        -- right. exists cs. split; [left|done].
      * left. split; [done|by right].
      * right. exists cs. split; [by right|done].
    + intros [[-> H]|(cs & H & Hc)].
      * apply elem_of_cons in H as [<-|H]; [left; left|right; left; done].
      * apply elem_of_cons in H as [<-|H]; [by left|].
        right. right. by exists cs.
Qed.

Lemma convert_names_nonempty (args : list string) :
  py_not (convert_to_one_list (map PyStr args)) = py_not args.
Proof.
  unfold convert_to_one_list. rewrite to_one_list_scalars. by destruct args.
Qed.

(** ** Centroid *)

Lemma py_not_true {A} (l : list A) : py_not l = true ↔ l = [].
Proof. by destruct l. Qed.

Lemma forallb_false_ex {A} (f : A → bool) (l : list A) :
  forallb f l = false ↔ ∃ x, x ∈ l ∧ f x = false.
Proof.
  induction l as [|a l IH]; simpl.
  - split; [done|]. by intros (x & ?%elem_of_nil & _).
  - rewrite andb_false_iff, IH. split.
    + intros [H|(x & Hin & H)]; [exists a; split; [left|done]|].
      exists x. split; [by right|done].
    + intros (x & [->|Hin]%elem_of_cons & H); [by left|]. right. by exists x.
Qed.

Lemma flat_empty (locs : list location) :
  py_not (convert_to_one_list [locs]) = true ↔ has_no_coordinates locs.
Proof.
  rewrite py_not_true, convert_one_argument. unfold has_no_coordinates.
  induction locs as [|l locs IH]; simpl.
  - split; [constructor|done].
  - rewrite Forall_cons, <- IH, to_one_list_location. split.
    + intros [H1 H2]%app_eq_nil. split; [|done]. destruct l; [done|by subst].
    + intros [-> ->]. done.
Qed.

Lemma None_in_flat (locs : list location) :
  existsb is_None (convert_to_one_list [locs]) = true ↔ contains_None locs.
Proof.
  rewrite existsb_exists. unfold contains_None. split.
  - intros (c & Hc%list_elem_of_In & Hn). destruct c; try done.
    apply elem_of_convert_one_argument in Hc as [[_ H]|H]; [by left|by right].
  - intros H. exists PyNone. split; [|done].
    apply list_elem_of_In, elem_of_convert_one_argument.
    destruct H as [H|H]; [by left|by right].
Qed.

Lemma same_length_false (locs : list location) :
  differing_lengths locs → check_list_of_lists_are_same_length [locs] = false.
Proof.
  intros (cs1 & cs2 & H1 & H2 & Hne).
  destruct (check_list_of_lists_are_same_length [locs]) eqn:E; [|done].
  exfalso. apply Hne. unfold check_list_of_lists_are_same_length in E.
  simpl in E. rewrite app_nil_r in E. destruct locs as [|l0 ls].
  { by apply elem_of_nil in H1. }
  rewrite forallb_forall in E.
  assert (∀ cs, Coords cs ∈ l0 :: ls → length cs = location_len l0) as Hall.
  { intros cs [<-|Hin]%elem_of_cons; [done|].
    apply list_elem_of_In, E in Hin. by apply Nat.eqb_eq in Hin. }
  by rewrite (Hall _ H1), (Hall _ H2).
Qed.

Lemma same_length_false_inv (locs : list location) :
  NoLocation ∉ locs →
  check_list_of_lists_are_same_length [locs] = false → differing_lengths locs.
Proof.
  intros Hnone E. unfold check_list_of_lists_are_same_length in E.
  simpl in E. rewrite app_nil_r in E. destruct locs as [|l0 ls]; [done|].
  apply forallb_false_ex in E as (l & Hin & E). apply Nat.eqb_neq in E.
  destruct l0 as [|cs0]; [exfalso; apply Hnone; left|].
  destruct l as [|cs]; [exfalso; apply Hnone; by right|].
  exists cs, cs0. split; [by right|]. split; [left|done].
Qed.

Lemma float_of_PyFloat (l : list R) : mapM float_of (map PyFloat l) = Some l.
Proof. induction l as [|x l IH]; [done|]. simpl. by rewrite IH. Qed.

Lemma np_array_as_locations (rows : list (list R)) :
  np_array (as_locations rows) = Some rows.
Proof.
  unfold np_array, as_locations. induction rows as [|r rows IH]; [done|].
  simpl. rewrite float_of_PyFloat. simpl.
  unfold as_locations in IH. by rewrite IH.
Qed.

Lemma all_floats_map (cs : list scalar) :
  forallb isinstance_float cs = true → ∃ r, cs = map PyFloat r.
Proof.
  induction cs as [|c cs IH]; simpl; [by exists []|].
  intros [Hc [r ->]%IH]%andb_true_iff. destruct c; try done.
  by exists (x :: r).
Qed.

Lemma all_floats_as_locations (locs : list location) :
  forallb isinstance_float (convert_to_one_list [locs]) = true →
  ∃ rows, locs = as_locations rows.
Proof.
  rewrite convert_one_argument. induction locs as [|l locs IH]; simpl.
  { by exists []. }
  rewrite forallb_app, to_one_list_location.
  intros [Hl [rows ->]%IH]%andb_true_iff. destruct l as [|cs]; [done|].
  apply all_floats_map in Hl as [r ->]. by exists (r :: rows).
Qed.

Lemma flat_as_locations (rows : list (list R)) :
  convert_to_one_list [as_locations rows] = map PyFloat (concat rows).
Proof.
  rewrite convert_one_argument. induction rows as [|r rows IH]; [done|].
  change (as_locations (r :: rows)) with (Coords (map PyFloat r) :: as_locations rows).
  rewrite map_cons, !concat_cons, IH, to_one_list_location. by rewrite map_app.
Qed.

Lemma non_float_in_flat (locs : list location) :
  NoLocation ∉ locs →
  forallb isinstance_float (convert_to_one_list [locs]) = false ↔
  has_coordinate_not isinstance_float locs.
Proof.
  intros Hnone. rewrite forallb_false_ex. unfold has_coordinate_not. split.
  - intros (c & [[_ H]|(cs & H & Hc)]%elem_of_convert_one_argument & Hf); [done|].
    by exists cs, c.
  - intros (cs & c & H & Hc & Hf). exists c. split; [|done].
    apply elem_of_convert_one_argument. right. by exists cs.
Qed.

Lemma nth_zip_with_Rplus (r x : list R) (j : nat) :
  j < length r → length x = length r →
  nth j (zip_with Rplus r x) 0%R = (nth j r 0 + nth j x 0)%R.
Proof.
  revert x j. induction r as [|a r IH]; intros [|b x] j Hj Hlen; simpl in *; try lia.
  destruct j as [|j]; [done|]. apply IH; lia.
Qed.

Lemma foldl_rows (n : nat) (rs : list (list R)) (r : list R) :
  length r = n → Forall (λ x, length x = n) rs →
  length (foldl (zip_with Rplus) r rs) = n ∧
  ∀ j, j < n →
    nth j (foldl (zip_with Rplus) r rs) 0%R
    = (nth j r 0 + fold_right Rplus 0 (column j rs))%R.
Proof.
  revert r. induction rs as [|x rs IH]; intros r Hr Hrs; simpl.
  - split; [done|]. intros j _. lra.
  - apply Forall_cons in Hrs as [Hx Hrs].
    destruct (IH (zip_with Rplus r x)) as [Hlen Hnth]; [|done|].
    { rewrite length_zip_with. lia. }
    split; [done|]. intros j Hj.
    rewrite Hnth, nth_zip_with_Rplus by lia. lra.
Qed.

Lemma np_sum_axis0_mean (n : nat) (rows : list (list R)) :
  rows ≠ [] → Forall (λ r, length r = n) rows →
  map (λ s, s / INR (length rows))%R (np_sum_axis0 rows) = coordinatewise_mean n rows.
Proof.
  intros Hne Hall. destruct rows as [|r rs]; [done|].
  apply Forall_cons in Hall as [Hr Hrs].
  destruct (foldl_rows n rs r Hr Hrs) as [Hlen Hnth].
  unfold coordinatewise_mean, np_sum_axis0.
  apply (nth_ext _ _ (0 / INR (length (r :: rs)))%R (mean (column 0 (r :: rs)))).
  { by rewrite !length_map, length_seq. }
  intros j Hj. rewrite length_map, Hlen in Hj.
  rewrite (map_nth (λ s, s / INR (length (r :: rs)))%R), Hnth by done.
  rewrite (map_nth (λ j, mean (column j (r :: rs)))), seq_nth by done.
  unfold mean, column. simpl fold_right. by rewrite length_map.
Qed.

Lemma get_centroid_floats (n : nat) (rows : list (list R)) :
  rows ≠ [] → 0 < n → Forall (λ r, length r = n) rows →
  get_centroid (as_locations rows) = Return (coordinatewise_mean n rows).
Proof.
  intros Hne Hn Hall. unfold get_centroid.
  destruct (py_not _) eqn:E1.
  { apply flat_empty in E1. destruct rows as [|r rows]; [done|].
    apply Forall_cons in E1 as [E1 _]. apply Forall_cons in Hall as [Hr _].
    injection E1 as E1. destruct r; simpl in *; [lia|done]. }
  rewrite flat_as_locations.
  destruct (existsb is_None _) eqn:E2.
  { apply existsb_exists in E2 as (c & (x & <- & _)%in_map_iff & Hc). done. }
  destruct (check_list_of_lists_are_same_length _) eqn:E3; simpl.
  2:{ apply same_length_false_inv in E3 as (cs1 & cs2 & H1 & H2 & Hd).
      - exfalso. apply Hd. unfold as_locations in H1, H2.
        apply list_elem_of_fmap in H1 as (r1 & [= ->] & H1).
        apply list_elem_of_fmap in H2 as (r2 & [= ->] & H2).
        rewrite Forall_forall in Hall. rewrite !length_map.
        by rewrite (Hall r1 H1), (Hall r2 H2).
      - unfold as_locations. by intros (? & ? & _)%list_elem_of_fmap. }
  destruct (forallb isinstance_float _) eqn:E4; simpl.
  2:{ apply forallb_false_ex in E4 as (c & (x & -> & _)%list_elem_of_fmap & Hc). done. }
  rewrite np_array_as_locations. f_equal.
  unfold as_locations at 1. rewrite length_map. by apply np_sum_axis0_mean.
Qed.

Lemma get_centroid_raises_iff (locs : list location) :
  raises_ValidationError (get_centroid locs) ↔
  has_no_coordinates locs ∨ contains_None locs ∨ differing_lengths locs
  ∨ has_coordinate_not isinstance_float locs.
Proof.
  unfold get_centroid.
  destruct (py_not _) eqn:E1.
  { split; [|done]. intros _. left. by apply flat_empty. }
  destruct (existsb is_None _) eqn:E2.
  { split; [|done]. intros _. right. left. by apply None_in_flat. }
  assert (NoLocation ∉ locs) as Hnone.
  { intros H. apply not_true_iff_false in E2. apply E2, None_in_flat. by left. }
  destruct (check_list_of_lists_are_same_length _) eqn:E3; simpl.
  2:{ split; [|done]. intros _. right. right. left.
      by apply same_length_false_inv. }
  destruct (forallb isinstance_float _) eqn:E4; simpl.
  2:{ split; [|done]. intros _. do 3 right. by apply non_float_in_flat. }
  destruct (all_floats_as_locations locs E4) as [rows ->].
  rewrite np_array_as_locations. simpl. split; [done|].
  intros [H|[H|[H|H]]].
  - apply flat_empty in H. congruence.
  - apply None_in_flat in H. congruence.
  - apply same_length_false in H. congruence.
  - apply non_float_in_flat in H; [congruence|done].
Qed.

Lemma get_centroid_total (locs : list location) :
  raises_ValidationError (get_centroid locs) ∨ ∃ c, get_centroid locs = Return c.
Proof.
  unfold get_centroid.
  repeat (match goal with |- context [if ?b then _ else _] => destruct b end;
          [by left|]).
  destruct (np_array locs); [right; eauto|by left].
Qed.

(** C7, as amended: on a non-empty group of equally long locations of
    floats (of at least one coordinate) [get_centroid] returns the
    coordinate-wise arithmetic mean, a group of one location gives that
    location back, and it raises (a [ValueError] or a [TypeError], nothing
    else) exactly when the input has no coordinate, contains a [None],
    contains locations of differing lengths, or contains a coordinate that
    is not a float. *)
Theorem get_centroid_mean_or_validation_error :
  (∀ n rows, rows ≠ [] → 0 < n → Forall (λ r, length r = n) rows →
     get_centroid (as_locations rows) = Return (coordinatewise_mean n rows))
  ∧ (∀ v, v ≠ [] → get_centroid (as_locations [v]) = Return v)
  ∧ (∀ locs,
       raises_ValidationError (get_centroid locs) ↔
       has_no_coordinates locs ∨ contains_None locs ∨ differing_lengths locs
       ∨ has_coordinate_not isinstance_float locs)
  ∧ (∀ locs, raises (get_centroid locs) → raises_ValidationError (get_centroid locs)).
Proof.
  split; [exact get_centroid_floats|]. split; [|split; [exact get_centroid_raises_iff|]].
  - intros v Hv.
    rewrite (get_centroid_floats (length v) [v]).
    + f_equal. unfold coordinatewise_mean, mean, column. simpl.
      apply (nth_ext _ _ 0%R 0%R); [by rewrite length_map, length_seq|].
      intros j Hj. rewrite length_map, length_seq in Hj.
      rewrite (nth_indep _ _ ((nth 0 v 0 + 0) / 1)%R) by (by rewrite length_map, length_seq).
      rewrite (map_nth (λ j, (nth j v 0 + 0) / 1)%R), seq_nth by done.
      simpl. lra.
    + done.
    + destruct v; [done|simpl; lia].
    + by constructor.
  - intros locs Hr. destruct (get_centroid_total locs) as [H|[c H]]; [done|].
    by rewrite H in Hr.
Qed.

Lemma get_centroid_mean_or_validation_error_witness :
  get_centroid (as_locations [[0; 0; 0]; [2; 4; 6]]%R)
  = Return (coordinatewise_mean 3 [[0; 0; 0]; [2; 4; 6]]%R)
  ∧ get_centroid (as_locations [[1; 2; 3]%R]) = Return [1; 2; 3]%R
  ∧ raises (get_centroid [Coords [PyFloat 1]; NoLocation])
  ∧ raises_ValidationError (get_centroid [Coords [PyFloat 1]; NoLocation]).
Proof.
  destruct get_centroid_mean_or_validation_error as (Hmean & Hone & Hiff & Honly).
  split; [|split; [|split]].
  - apply Hmean; [done|lia|]. by repeat constructor.
  - by apply Hone.
  - exact I.
  - apply Honly. exact I.
Defined.

(** C7, as stated, fails on a group whose coordinates are ints: they are
    numeric, the group is non-empty, without [None] and of one length, and
    yet [get_centroid] raises a [TypeError] instead of returning the mean. *)
Lemma get_centroid_rejects_int_coordinates :
  get_centroid [Coords [PyInt 0; PyInt 0; PyInt 0]; Coords [PyInt 2; PyInt 4; PyInt 6]]
  = Raise (TypeError "Error. Microphone location list does not contain a float type.")
  ∧ ¬ (has_no_coordinates [Coords [PyInt 0; PyInt 0; PyInt 0]; Coords [PyInt 2; PyInt 4; PyInt 6]]
       ∨ contains_None [Coords [PyInt 0; PyInt 0; PyInt 0]; Coords [PyInt 2; PyInt 4; PyInt 6]]
       ∨ differing_lengths [Coords [PyInt 0; PyInt 0; PyInt 0]; Coords [PyInt 2; PyInt 4; PyInt 6]]
       ∨ has_coordinate_not is_numeric
           [Coords [PyInt 0; PyInt 0; PyInt 0]; Coords [PyInt 2; PyInt 4; PyInt 6]]).
Proof.
  split; [reflexivity|].
  intros [H|[H|[H|H]]].
  - by apply Forall_cons in H as [? _].
  - destruct H as [H|(cs & H & Hc)]; [by elem_of_cases H|].
    elem_of_cases H; injection H as ->; by elem_of_cases Hc.
  - destruct H as (cs1 & cs2 & H1 & H2 & Hd). apply Hd.
    elem_of_cases H1; injection H1 as ->; elem_of_cases H2; by injection H2 as ->.
  - destruct H as (cs & c & H & Hc & Hn).
    elem_of_cases H; injection H as ->; elem_of_cases Hc; by subst.
Qed.

(** ** Dictionaries *)

Lemma dict_of_snoc `{Countable K} {V} (items : list (K * V)) (k : K) (v : V) :
  dict_of (items ++ [(k, v)]) = <[k := v]> (dict_of items).
Proof. unfold dict_of. by rewrite foldl_snoc. Qed.

Lemma dict_of_lookup_None `{Countable K} {V} (items : list (K * V)) (k : K) :
  k ∉ items.*1 → dict_of items !! k = None.
Proof.
  induction items as [|[k' v'] items IH] using rev_ind; intros Hk; [done|].
  rewrite fmap_app, not_elem_of_app in Hk. destruct Hk as [Hk Hk'].
  rewrite dict_of_snoc, lookup_insert_ne; [by apply IH|].
  intros ->. apply Hk'. simpl. left.
Qed.

Lemma dict_of_lookup_Some `{Countable K} {V} (items : list (K * V)) (j : nat) (k : K) (v : V) :
  NoDup items.*1 → items !! j = Some (k, v) → dict_of items !! k = Some v.
Proof.
  revert j. induction items as [|[k' v'] items IH] using rev_ind; intros j Hnd Hj; [done|].
  rewrite fmap_app in Hnd. apply NoDup_app in Hnd as (Hnd & Hdisj & _).
  rewrite dict_of_snoc. apply lookup_app_Some in Hj as [Hj|[Hlen Hj]].
  - rewrite lookup_insert_ne; [by eapply IH|].
    intros ->. apply (Hdisj k); [|left].
    apply list_elem_of_fmap. exists (k, v). split; [done|].
    by eapply list_elem_of_lookup_2.
  - destruct (j - length items) as [|?]; [|done]. injection Hj as -> ->.
    by rewrite lookup_insert_eq.
Qed.

Lemma fst_imap_keys {K V} (f : nat → K) (l : list V) :
  (imap (λ j v, (f j, v)) l).*1 = map f (seq 0 (length l)).
Proof.
  revert f. induction l as [|v l IH]; intros f; [done|].
  simpl. f_equal. rewrite <- seq_shift, map_map. apply (IH (f ∘ S)).
Qed.

(** ** Matching microphones to signals *)

Lemma None_in_tolist_None_in (data : ndarray) :
  None_in data = false → None_in_tolist data = false.
Proof.
  unfold None_in_tolist. destruct data as [cells|rows]; simpl.
  - induction cells as [|c cells IH]; [done|]. simpl.
    intros [Hc H]%orb_false_iff. rewrite IH by done. by destruct c.
  - intros _. by induction rows.
Qed.

Lemma known_names_lookup (i : nat) (name : string) :
  known_names !! i = Some name → i < 12 ∧ name = "mic" +:+ str (i + 1).
Proof.
  unfold known_names. rewrite list_lookup_fmap. intros H.
  destruct (seq 1 12 !! i) as [k|] eqn:E; [|done].
  apply lookup_seq in E as [-> Hi]. injection H as <-.
  split; [done|]. unfold mic_name. by rewrite Nat.add_comm.
Qed.

Lemma mic_dict_lookup {V} (l : list V) (arg : string) :
  length l = 12 →
  dict_of (imap (λ j v, ("mic" +:+ str (j + 1), v)) l) !! arg
  = (i ← mic_position arg; l !! i).
Proof.
  intros Hlen. unfold mic_position.
  destruct (list_find _ known_names) as [[i name]|] eqn:E; simpl.
  - apply list_find_Some in E as (Hi & -> & _).
    apply known_names_lookup in Hi as [Hi ->].
    destruct (lookup_lt_is_Some_2 l i) as [v Hv]; [lia|]. rewrite Hv.
    apply (dict_of_lookup_Some _ i).
    + rewrite fst_imap_keys, Hlen. by compute_done.
    + by rewrite list_lookup_imap, Hv.
  - apply list_find_None in E. apply dict_of_lookup_None.
    rewrite fst_imap_keys, Hlen. intros Hin.
    rewrite Forall_forall in E. apply (E arg); [|done].
    unfold known_names. rewrite <- (seq_shift 12 0), map_map.
    erewrite map_ext; [exact Hin|]. intros j. simpl. unfold mic_name.
    by rewrite Nat.add_comm.
Qed.

Lemma mic_loop {K} `{Countable K} (d : gmap K (list R * row)) (args : list K)
    (signal_list : list row) (mic_location : list (list R)) :
  foldl (λ '(signal_list, mic_location) arg,
           match d !! arg with
           | Some (loc, sig) => (signal_list ++ [sig], mic_location ++ [loc])
           | None => (signal_list, mic_location)
           end) (signal_list, mic_location) args
  = (signal_list ++ omap (λ arg, snd <$> d !! arg) args,
     mic_location ++ omap (λ arg, fst <$> d !! arg) args).
Proof.
  revert signal_list mic_location.
  induction args as [|arg args IH]; intros s m; simpl.
  - by rewrite !app_nil_r.
  - destruct (d !! arg) as [[loc sig]|]; simpl; rewrite IH; [|done].
    by rewrite <- !app_assoc.
Qed.

Lemma get_mic_match_clean (data : ndarray) (args : list string) :
  clean data → args ≠ [] →
  get_mic_match_with_sound_data data args
  = if Nat.eqb 12 (len data)
    then Return (Matched (omap (signal_for data) args) (omap location_for args))
    else Return (Message mismatch_message).
Proof.
  intros (Hrows & Hnone & Hstr) Hargs.
  unfold get_mic_match_with_sound_data, signal_for, location_for.
  rewrite (None_in_tolist_None_in data Hnone), andb_false_r, orb_false_r.
  destruct (py_not (tolist data)) eqn:E; [by apply py_not_true in E|].
  rewrite Hnone, Hstr, convert_names_nonempty.
  destruct (py_not args) eqn:E'; [by apply py_not_true in E'|].
  assert (length create_microphone_locations_list = 12) as Hlayout by done.
  revert Hlayout. generalize create_microphone_locations_list. intros layout Hlayout. rewrite Hlayout.
  destruct (Nat.eqb 12 (len data)) eqn:Hlen; [|done].
  apply Nat.eqb_eq in Hlen. unfold len in Hlen.
  rewrite mic_loop. cbn [app]. f_equal. f_equal.
  - apply list_omap_ext. apply Forall2_same_length_lookup_2; [done|].
    intros i a b Ha Hb. rewrite Ha in Hb. injection Hb as <-.
    rewrite mic_dict_lookup by (rewrite length_zip_with; lia).
    destruct (mic_position a) as [j|]; [simpl|done].
    rewrite lookup_zip_with. destruct (layout !! j) as [loc|] eqn:Hj; simpl.
    + by destruct (tolist data !! j).
    + apply lookup_ge_None in Hj. symmetry. apply lookup_ge_None. lia.
  - apply list_omap_ext. apply Forall2_same_length_lookup_2; [done|].
    intros i a b Ha Hb. rewrite Ha in Hb. injection Hb as <-.
    rewrite mic_dict_lookup by (rewrite length_zip_with; lia).
    destruct (mic_position a) as [j|]; [simpl|done].
    rewrite lookup_zip_with. destruct (layout !! j) as [loc|] eqn:Hj; simpl; [|done].
    destruct (tolist data !! j) eqn:Hr; [done|].
    apply lookup_ge_None in Hr. apply lookup_lt_Some in Hj. lia.
Qed.

Lemma mic_position_unknown (name : string) :
  name ∉ known_names → mic_position name = None.
Proof.
  intros Hname. unfold mic_position.
  destruct (list_find _ known_names) as [[i n]|] eqn:E; [|done].
  apply list_find_Some in E as (Hi & -> & _).
  exfalso. apply Hname. by eapply list_elem_of_lookup_2.
Qed.

Lemma mic_position_known (name : string) :
  name ∈ known_names → ∃ i, mic_position name = Some i ∧ i < 12.
Proof.
  intros Hname. unfold mic_position.
  destruct (list_find_elem_of (λ n, n = name) known_names name Hname eq_refl)
    as [[i n] E].
  rewrite E. exists i. split; [done|].
  apply list_find_Some in E as (Hi%lookup_lt_Some & _). exact Hi.
Qed.

Lemma mic_position_name (k : nat) :
  1 ≤ k ≤ 12 → mic_position (mic_name k) = Some (k - 1).
Proof.
  intros [H1 H2].
  do 13 (destruct k as [|k]; [first [lia|by vm_compute]|]). lia.
Qed.

Lemma omap_cons {A B} (f : A → option B) (a : A) (l : list A) :
  omap f (a :: l) = match f a with Some y => y :: omap f l | None => omap f l end.
Proof. done. Qed.

Lemma omap_total {A B} (f : A → option B) (l : list A) :
  Forall (λ a, is_Some (f a)) l →
  length (omap f l) = length l ∧ ∀ i a, l !! i = Some a → omap f l !! i = f a.
Proof.
  induction 1 as [|a l [b Hb] Hl [IHlen IH]]; [split; [done|by intros []]|].
  rewrite omap_cons, Hb. simpl. split; [by rewrite IHlen|].
  intros [|i] a' Hi; simpl in *; [by injection Hi as <-|by apply IH].
Qed.

(** C1, as amended: a signal matrix that passes the checks before (it is
    not empty and holds no [None] and no empty string, and at least one
    name is requested) and whose row count is not 12 makes
    [get_mic_match_with_sound_data] return the mismatch message, a string,
    in place of the pair of lists; nothing is raised. *)
Theorem row_count_mismatch_returns_message (data : ndarray) (args : list string) :
  clean data → args ≠ [] → len data ≠ 12 →
  get_mic_match_with_sound_data data args = Return (Message mismatch_message)
  ∧ ¬ raises (get_mic_match_with_sound_data data args).
Proof.
  intros Hclean Hargs Hlen.
  rewrite (get_mic_match_clean data args Hclean Hargs).
  destruct (Nat.eqb 12 (len data)) eqn:E.
  - apply Nat.eqb_eq in E. lia.
  - split; [done|]. by intros [].
Qed.

Lemma row_count_mismatch_returns_message_witness :
  get_mic_match_with_sound_data (Array2 [[PyFloat 0; PyFloat 1]; [PyFloat 2; PyFloat 3]])
                                ["mic1"; "mic2"]
  = Return (Message mismatch_message)
  ∧ ¬ raises (get_mic_match_with_sound_data
                (Array2 [[PyFloat 0; PyFloat 1]; [PyFloat 2; PyFloat 3]])
                ["mic1"; "mic2"]).
Proof.
  apply row_count_mismatch_returns_message.
  - unfold clean. simpl. done.
  - done.
  - unfold len. simpl. lia.
Defined.

(** C1, as stated, fails on a matrix of two rows: the call returns a string
    and raises nothing, so no [ValidationError] reaches the caller, and what
    is returned is not an error value. *)
Lemma row_count_mismatch_is_not_raised :
  len (Array2 [[PyFloat 0; PyFloat 1]; [PyFloat 2; PyFloat 3]]) ≠ 12
  ∧ get_mic_match_with_sound_data
      (Array2 [[PyFloat 0; PyFloat 1]; [PyFloat 2; PyFloat 3]]) ["mic1"; "mic2"]
    = Return (Message
        "Error. Mismatch in length of microphone location list and length of signal list.")
  ∧ ¬ raises_ValidationError
        (get_mic_match_with_sound_data
           (Array2 [[PyFloat 0; PyFloat 1]; [PyFloat 2; PyFloat 3]]) ["mic1"; "mic2"]).
Proof.
  split; [unfold len; simpl; lia|]. split; [reflexivity|]. by intros [].
Qed.

(** C8: on a signal matrix of 12 rows (that passes the checks) the signals
    and the locations that [get_mic_match_with_sound_data] returns for
    requested known microphones are in the order of the request: the i-th
    signal is the row, and the i-th location the layout entry, of the i-th
    requested microphone. *)
Theorem requested_order_is_preserved (data : ndarray) (ks : list nat) :
  clean data → len data = 12 → ks ≠ [] → Forall (λ k, 1 ≤ k ≤ 12) ks →
  ∃ signal_list mic_location,
    get_mic_match_with_sound_data data (map mic_name ks)
    = Return (Matched signal_list mic_location)
    ∧ length signal_list = length ks ∧ length mic_location = length ks
    ∧ ∀ i k, ks !! i = Some k →
        signal_list !! i = tolist data !! (k - 1)
        ∧ mic_location !! i = create_microphone_locations_list !! (k - 1)
        ∧ is_Some (signal_list !! i) ∧ is_Some (mic_location !! i).
Proof.
  intros Hclean Hlen Hks Hall.
  rewrite (get_mic_match_clean data (map mic_name ks) Hclean) by (by destruct ks).
  rewrite Hlen. simpl Nat.eqb. cbv iota. clear Hks.
  assert (omap (signal_for data) (map mic_name ks)
          = omap (λ k, tolist data !! (k - 1)) ks) as ->.
  { induction Hall as [|k ks Hk _ IH]; [done|].
    rewrite map_cons, !omap_cons.
    unfold signal_for at 1. rewrite (mic_position_name k Hk). simpl.
    by rewrite IH. }
  assert (omap location_for (map mic_name ks)
          = omap (λ k, create_microphone_locations_list !! (k - 1)) ks) as ->.
  { induction Hall as [|k ks Hk _ IH]; [done|].
    rewrite map_cons, !omap_cons.
    unfold location_for at 1. rewrite (mic_position_name k Hk).
    cbn [mbind option_bind]. by rewrite IH. }
  destruct (omap_total (λ k, tolist data !! (k - 1)) ks) as [Hl1 Hs].
  { eapply Forall_impl; [exact Hall|]. intros k Hk. simpl in *.
    apply lookup_lt_is_Some_2. unfold len in Hlen. lia. }
  destruct (omap_total (λ k, create_microphone_locations_list !! (k - 1)) ks)
    as [Hl2 Hm].
  { eapply Forall_impl; [exact Hall|]. intros k Hk. simpl in *.
    apply lookup_lt_is_Some_2. change (length create_microphone_locations_list) with 12.
    lia. }
  eexists _, _. split; [done|]. split; [done|]. split; [done|].
  intros i k Hi. rewrite (Hs i k Hi), (Hm i k Hi).
  rewrite Forall_forall in Hall.
  assert (1 ≤ k ≤ 12) as Hk by (apply Hall; by eapply list_elem_of_lookup_2).
  split; [done|]. split; [done|].
  split; apply lookup_lt_is_Some_2; [unfold len in Hlen; lia|].
  change (length create_microphone_locations_list) with 12. lia.
Qed.

Lemma twelve_rows_clean : clean twelve_rows.
Proof. by unfold clean. Qed.

Lemma requested_order_is_preserved_witness :
  ∃ signal_list mic_location,
    get_mic_match_with_sound_data twelve_rows (map mic_name [3; 1])
    = Return (Matched signal_list mic_location)
    ∧ length signal_list = 2 ∧ length mic_location = 2
    ∧ ∀ i k, [3; 1] !! i = Some k →
        signal_list !! i = tolist twelve_rows !! (k - 1)
        ∧ mic_location !! i = create_microphone_locations_list !! (k - 1)
        ∧ is_Some (signal_list !! i) ∧ is_Some (mic_location !! i).
Proof.
  apply (requested_order_is_preserved twelve_rows [3; 1]).
  - exact twelve_rows_clean.
  - reflexivity.
  - discriminate.
  - repeat constructor.
Defined.

Example mic3_then_mic1 :
  get_mic_match_with_sound_data twelve_rows ["mic3"; "mic1"]
  = Return (Matched [Signal [PyInt 3]; Signal [PyInt 1]]
                    [[-0.102235; -0.109982; -0.053340]%R;
                     [-0.102235; -0.109982; 0.056388]%R]).
Proof.
  rewrite (get_mic_match_clean _ _ twelve_rows_clean) by done.
  change ["mic3"; "mic1"] with (map mic_name [3; 1]).
  change (len twelve_rows) with 12. simpl Nat.eqb. cbv iota.
  rewrite map_cons, map_cons, !omap_cons. unfold signal_for, location_for.
  rewrite !mic_position_name by lia. reflexivity.
Qed.

(** C10: on a signal matrix of 12 rows (that passes the checks) and a
    non-empty request, [get_mic_match_with_sound_data] raises nothing and
    returns, in the order of the request, the signals and locations of the
    requested names that are among mic1 .. mic12; any other name
    contributes nothing, so the lists may be shorter than the request. *)
Theorem unknown_names_are_skipped (data : ndarray) (args : list string) :
  clean data → len data = 12 → args ≠ [] →
  get_mic_match_with_sound_data data args
  = Return (Matched (omap (signal_for data) args) (omap location_for args))
  ∧ (∀ name, name ∉ known_names →
       signal_for data name = None ∧ location_for name = None)
  ∧ (∀ name, name ∈ known_names →
       is_Some (signal_for data name) ∧ is_Some (location_for name))
  ∧ length (omap (signal_for data) args) = length (filter (.∈ known_names) args)
  ∧ length (omap location_for args) = length (filter (.∈ known_names) args).
Proof.
  intros Hclean Hlen Hargs.
  assert (∀ name, name ∉ known_names →
            signal_for data name = None ∧ location_for name = None) as Hunknown.
  { intros name Hname. unfold signal_for, location_for.
    by rewrite (mic_position_unknown name Hname). }
  assert (∀ name, name ∈ known_names →
            is_Some (signal_for data name) ∧ is_Some (location_for name)) as Hknown.
  { intros name (i & Hi & Hlt)%mic_position_known. unfold signal_for, location_for.
    rewrite Hi. simpl. split; apply lookup_lt_is_Some_2.
    - unfold len in Hlen. lia.
    - change (length create_microphone_locations_list) with 12. lia. }
  split; [|split; [done|split; [done|]]].
  { rewrite (get_mic_match_clean data args Hclean Hargs), Hlen. done. }
  clear Hargs. split.
  - induction args as [|a args IH]; [done|].
    rewrite omap_cons, filter_cons. destruct (decide (a ∈ known_names)) as [Ha|Ha].
    + destruct (Hknown a Ha) as [[r ->] _]. simpl. by rewrite IH.
    + destruct (Hunknown a Ha) as [-> _]. done.
  - induction args as [|a args IH]; [done|].
    rewrite omap_cons, filter_cons. destruct (decide (a ∈ known_names)) as [Ha|Ha].
    + destruct (Hknown a Ha) as [_ [r ->]]. simpl. by rewrite IH.
    + destruct (Hunknown a Ha) as [_ ->]. done.
Qed.

Lemma unknown_names_are_skipped_witness :
  get_mic_match_with_sound_data twelve_rows ["mic3"; "mic13"; "microphone"; "mic1"]
  = Return (Matched
      (omap (signal_for twelve_rows) ["mic3"; "mic13"; "microphone"; "mic1"])
      (omap location_for ["mic3"; "mic13"; "microphone"; "mic1"]))
  ∧ length (omap (signal_for twelve_rows) ["mic3"; "mic13"; "microphone"; "mic1"]) = 2
  ∧ length (omap location_for ["mic3"; "mic13"; "microphone"; "mic1"]) = 2.
Proof.
  destruct (unknown_names_are_skipped twelve_rows
              ["mic3"; "mic13"; "microphone"; "mic1"])
    as (Hcall & _ & _ & Hsignals & Hlocations).
  - exact twelve_rows_clean.
  - reflexivity.
  - discriminate.
  - split; [exact Hcall|]. split; [exact Hsignals|exact Hlocations].
Defined.

(** ** Sound data *)

Lemma source_name_dict_keys (recovered : bool) (name : string) :
  name ∉ known_cycle_names → source_name_dict recovered !! name = None.
Proof.
  intros Hname. unfold source_name_dict.
  destruct recovered; apply dict_of_lookup_None; exact Hname.
Qed.

(** C9: when [recovered] is a boolean, [get_sound_data] raises a
    [NameError], the code's not-found error, for every name that is not the
    name of a source in {S1, S2} with a cycle in 0 .. 23. *)
Theorem unknown_cycle_name_raises_NameError
    (loadmat : string → outcome (gmap string ndarray))
    (self : SoundSourceLocation) (name : string) (b : bool) :
  recovered self = Bool b →
  (∀ source cycle, 1 ≤ source ≤ 2 → cycle < 24 → name ≠ cycle_name source cycle) →
  get_sound_data loadmat self name
  = Raise (NameError (name +:+ " name not in cycle list"))
  ∧ raises_NotFoundError (get_sound_data loadmat self name).
Proof.
  intros Hrec Hname. unfold get_sound_data. rewrite Hrec.
  rewrite source_name_dict_keys; [done|].
  unfold known_cycle_names. intros Hin.
  apply list_elem_of_bind in Hin as (source & Hin & Hsource).
  apply list_elem_of_bind in Hin as (cycle & Hin & Hcycle).
  apply list_elem_of_singleton in Hin.
  apply (Hname source cycle); [|by apply elem_of_seq in Hcycle as [_ ?]|done].
  elem_of_cases Hsource; subst; lia.
Qed.

Lemma not_a_cycle_name (name : string) :
  name ∉ known_cycle_names →
  ∀ source cycle, 1 ≤ source ≤ 2 → cycle < 24 → name ≠ cycle_name source cycle.
Proof.
  intros Hname source cycle Hs Hc ->. apply Hname. unfold known_cycle_names.
  apply list_elem_of_bind. exists source. split.
  - apply list_elem_of_bind. exists cycle. split; [left|].
    apply elem_of_seq. lia.
  - destruct Hs as [Hs1 Hs2].
    do 3 (destruct source as [|source]; [first [lia|by repeat constructor]|]). lia.
Qed.

Lemma unknown_cycle_name_raises_NameError_witness :
  (get_sound_data (λ _, Return ∅) (init "data/" "MUSIC" 1 (Bool false) false) "S3_Cycle0"
   = Raise (NameError "S3_Cycle0 name not in cycle list")
   ∧ raises_NotFoundError
       (get_sound_data (λ _, Return ∅) (init "data/" "MUSIC" 1 (Bool false) false)
                       "S3_Cycle0"))
  ∧ (get_sound_data (λ _, Return ∅) (init "data/" "MUSIC" 1 (Bool false) false) "S1_Cycle24"
     = Raise (NameError "S1_Cycle24 name not in cycle list")
     ∧ raises_NotFoundError
         (get_sound_data (λ _, Return ∅) (init "data/" "MUSIC" 1 (Bool false) false)
                         "S1_Cycle24")).
Proof.
  split.
  - apply (unknown_cycle_name_raises_NameError _ _ "S3_Cycle0" false); [reflexivity|].
    apply not_a_cycle_name. compute_done.
  - apply (unknown_cycle_name_raises_NameError _ _ "S1_Cycle24" false); [reflexivity|].
    apply not_a_cycle_name. compute_done.
Defined.

(** ** Loops and splitting *)

Lemma for_each_update_from {A} (P : A → Prop) (G : A → A)
    (body : nat → list A → outcome (list A)) (pre post : list A) :
  (∀ i arr x, arr !! i = Some x → P x → body i arr = Return (<[i := G x]> arr)) →
  Forall P post →
  for_each (seq (length pre) (length post)) body (pre ++ post)
  = Return (pre ++ map G post).
Proof.
  intros Hbody Hpost. revert pre.
  induction Hpost as [|x post Hx _ IH]; intros pre; [done|].
  simpl. rewrite (Hbody _ _ x); [|by apply list_lookup_middle|done].
  replace (<[length pre := G x]> (pre ++ x :: post)) with ((pre ++ [G x]) ++ post).
  - replace (S (length pre)) with (length (pre ++ [G x])).
    + simpl. rewrite IH. by rewrite <- app_assoc.
    + rewrite length_app. simpl. lia.
  - rewrite <- app_assoc. simpl.
    rewrite <- (Nat.add_0_r (length pre)) at 1. by rewrite insert_app_r.
Qed.

Lemma for_each_update {A} (P : A → Prop) (G : A → A)
    (body : nat → list A → outcome (list A)) (l : list A) :
  (∀ i arr x, arr !! i = Some x → P x → body i arr = Return (<[i := G x]> arr)) →
  Forall P l →
  for_each (seq 0 (length l)) body l = Return (map G l).
Proof. intros Hbody Hl. exact (for_each_update_from P G body [] l Hbody Hl). Qed.

Lemma singleton_slices {A} (l : list A) :
  map (λ i, slice (i * 1) ((i + 1) * 1) l) (seq 0 (length l)) = map (λ u, [u]) l.
Proof.
  apply list_eq. intros i. rewrite !list_lookup_fmap.
  destruct (l !! i) as [u|] eqn:E; simpl.
  - rewrite (lookup_seq_lt _ _ _ (lookup_lt_Some _ _ _ E)). simpl.
    unfold slice. replace ((i + 1) * 1 - i * 1) with 1 by lia.
    rewrite Nat.mul_1_r. by rewrite (drop_S _ _ _ E).
  - rewrite lookup_seq_ge; [done|]. by apply lookup_ge_None.
Qed.

Lemma np_vsplit_one_each {A} (ary : list A) (sections : Z) :
  (0 < sections)%Z → length ary = Z.to_nat sections →
  np_vsplit ary sections = Return (map (λ u, [u]) ary).
Proof.
  intros Hpos Hlen. unfold np_vsplit.
  destruct (Z.eqb_spec sections 0) as [?|_]; [lia|].
  rewrite Hlen, Z2Nat.id, Z.mod_same by lia. simpl.
  destruct (Z.ltb_spec sections 0) as [?|_]; [lia|].
  rewrite Nat.div_same by lia. f_equal.
  unfold range. rewrite Nat.sub_0_r, <- Hlen. apply singleton_slices.
Qed.

(** ** Estimates *)

Lemma sweep_one (radius : list R) (cx cy cz : R) (u : vec3) :
  (scaled ← broadcast_mul radius [u]; add_centroid scaled [cx; cy; cz])
  = Return (sweep radius (cx, cy, cz) u).
Proof. unfold sweep. simpl. by rewrite map_map. Qed.

Lemma length_concat_sweeps (radius : list R) (c : vec3) (units : list vec3) :
  length (concat (map (sweep radius c) units)) = length units * length radius.
Proof.
  induction units as [|u units IH]; [done|].
  simpl. rewrite length_app, IH. unfold sweep. by rewrite length_map.
Qed.

(** C3: with more than one source and one unit vector per source,
    [split_and_conquer] makes one group per source, sweeps each group over
    the radius grid with the one centroid it was given, and concatenates the
    groups in order: [num_sources * len(radius)] points; for two sources
    the first half is the sweep of the first vector and the second half
    that of the second, both around the same centroid. *)
Theorem split_and_conquer_sweeps_each_source
    (self : SoundSourceLocation) (cx cy cz : R) (units : list vec3) :
  (1 < num_sources self)%Z → length units = Z.to_nat (num_sources self) →
  split_and_conquer self [cx; cy; cz] units
  = Return (concat (map (sweep (radius self) (cx, cy, cz)) units))
  ∧ length (concat (map (sweep (radius self) (cx, cy, cz)) units))
    = Z.to_nat (num_sources self) * length (radius self)
  ∧ (∀ u1 u2, units = [u1; u2] →
       split_and_conquer self [cx; cy; cz] units
       = Return (sweep (radius self) (cx, cy, cz) u1
                 ++ sweep (radius self) (cx, cy, cz) u2)).
Proof.
  intros Hn Hlen.
  assert (split_and_conquer self [cx; cy; cz] units
          = Return (concat (map (sweep (radius self) (cx, cy, cz)) units))) as Hsplit.
  { unfold split_and_conquer.
    rewrite np_vsplit_one_each by (done || lia).
    cbn [mbind outcome_bind]. unfold range.
    rewrite Nat.sub_0_r, <- Hlen, <- (length_map (λ u, [u]) units).
    rewrite (for_each_update (λ part, ∃ u, part = [u])
               (λ part, match part with
                        | [u] => sweep (radius self) (cx, cy, cz) u
                        | _ => part
                        end)).
    - cbn [mbind outcome_bind]. by rewrite map_map.
    - intros i arr part Hi [u ->]. unfold index. rewrite Hi.
      cbn [mbind outcome_bind]. unfold sweep. simpl. by rewrite map_map.
    - apply Forall_fmap, Forall_true. intros u. by exists u. }
  split; [done|]. split.
  - by rewrite length_concat_sweeps, Hlen.
  - intros u1 u2 ->. rewrite Hsplit. simpl. by rewrite app_nil_r.
Qed.

Lemma split_and_conquer_sweeps_each_source_witness :
  split_and_conquer (init "data/" "MUSIC" 2 (Bool false) false) [0; 0; 0]%R
                    [(1, 0, 0); (0, 0, 1)]%R
  = Return (sweep (np_arange 500 0.001) (0, 0, 0)%R (1, 0, 0)%R
            ++ sweep (np_arange 500 0.001) (0, 0, 0)%R (0, 0, 1)%R)
  ∧ length (concat (map (sweep (np_arange 500 0.001) (0, 0, 0)%R)
                         [(1, 0, 0); (0, 0, 1)]%R)) = 2 * 500.
Proof.
  destruct (split_and_conquer_sweeps_each_source
              (init "data/" "MUSIC" 2 (Bool false) false) 0 0 0
              [(1, 0, 0); (0, 0, 1)]%R)
    as (_ & Hlen & Htwo); [reflexivity|reflexivity|].
  split; [by apply Htwo|exact Hlen].
Defined.

Lemma get_mic_match_Matched_inv (data : ndarray) (args : list string)
    (signal_list : list row) (mic_location : list (list R)) :
  get_mic_match_with_sound_data data args = Return (Matched signal_list mic_location) →
  clean data ∧ args ≠ [] ∧ len data = 12
  ∧ signal_list = omap (signal_for data) args
  ∧ mic_location = omap location_for args.
Proof.
  intros Hcall.
  assert (clean data ∧ args ≠ []) as [Hclean Hargs].
  { unfold get_mic_match_with_sound_data in Hcall.
    destruct (py_not (tolist data)) eqn:E1; [done|]. simpl in Hcall.
    destruct (_ && _) eqn:E2; [done|].
    destruct (None_in data) eqn:E3; [done|].
    destruct (empty_str_in_tolist data) eqn:E4; [done|].
    rewrite convert_names_nonempty in Hcall.
    destruct (py_not args) eqn:E5; [done|].
    split; [|by intros ->]. split; [by intros E; rewrite E in E1|done]. }
  rewrite (get_mic_match_clean data args Hclean Hargs) in Hcall.
  destruct (Nat.eqb 12 (len data)) eqn:Hlen; [|done].
  apply Nat.eqb_eq in Hlen. injection Hcall as <- <-. done.
Qed.

Lemma layout_three_coordinates :
  Forall (λ l : list R, length l = 3) create_microphone_locations_list.
Proof. repeat constructor. Qed.

Lemma matched_locations_three_coordinates (args : list string) :
  Forall (λ l : list R, length l = 3) (omap location_for args).
Proof.
  apply Forall_forall. intros l (name & _ & Hl)%list_elem_of_omap.
  unfold location_for in Hl. destruct (mic_position name) as [i|]; [|done].
  simpl in Hl. apply list_elem_of_lookup_2 in Hl.
  pose proof layout_three_coordinates as H. rewrite Forall_forall in H. by apply H.
Qed.

(** The centroid of a group of locations of three coordinates. *)
Lemma get_centroid_matched (locs : list (list R)) :
  locs ≠ [] → Forall (λ l : list R, length l = 3) locs →
  get_centroid (as_locations locs)
  = Return [mean (column 0 locs); mean (column 1 locs); mean (column 2 locs)].
Proof. intros Hne Hall. by rewrite (get_centroid_floats 3 locs Hne) by (lia || done). Qed.

Lemma direction_along_x : direction (0, PI / 2)%R = (1, 0, 0)%R.
Proof.
  unfold direction. rewrite cos_0, sin_0, sin_PI2, cos_PI2.
  by rewrite Rmult_1_l, Rmult_0_l.
Qed.

Section SingleSource.

Variable difference_of_arrivals :
  SoundSourceLocation → list row → list (list R) → outcome (list (R * R)).

Lemma get_estimates_single_source
    (self : SoundSourceLocation) (data : ndarray) (mic_split : list string)
    (signal : list row) (locs : list (list R)) (angles : R * R) :
  num_sources self = 1%Z →
  get_mic_match_with_sound_data data mic_split = Return (Matched signal locs) →
  locs ≠ [] →
  difference_of_arrivals self signal locs = Return [angles] →
  get_centroid (as_locations locs)
  = Return [mean (column 0 locs); mean (column 1 locs); mean (column 2 locs)]
  ∧ get_estimates difference_of_arrivals self (Some data) mic_split
    = Return (sweep (radius self)
                (mean (column 0 locs), mean (column 1 locs), mean (column 2 locs))
                (direction angles)).
Proof.
  intros Hone Hmatch Hlocs Hdoa.
  destruct (get_mic_match_Matched_inv _ _ _ _ Hmatch) as (_ & Hargs & _ & _ & Hl).
  assert (get_centroid (as_locations locs)
          = Return [mean (column 0 locs); mean (column 1 locs); mean (column 2 locs)])
    as Hcentroid.
  { apply get_centroid_matched; [done|]. rewrite Hl.
    apply matched_locations_three_coordinates. }
  split; [done|]. unfold get_estimates.
  destruct (py_not mic_split) eqn:E; [by apply py_not_true in E|].
  rewrite Hmatch. cbn [mbind outcome_bind].
  rewrite Hcentroid. cbn [mbind outcome_bind].
  rewrite Hdoa. cbn [mbind outcome_bind].
  rewrite Hone. simpl Z.ltb. cbv iota. apply sweep_one.
Qed.

(** C2: with one source, the microphones matched to [signal] and [locs]
    (at least one) and one recovered pair of angles, [get_estimates]
    returns one point per radius value, the i-th being the i-th radius
    times the unit vector of the angles plus the centroid of the matched
    locations; for azimuth 0 and co-latitude pi/2 that is
    [r_i * (1, 0, 0) + centroid]. *)
Theorem single_source_estimates_sweep_the_radius
    (self : SoundSourceLocation) (data : ndarray) (mic_split : list string)
    (signal : list row) (locs : list (list R)) (azimuth colatitude : R) :
  num_sources self = 1%Z →
  get_mic_match_with_sound_data data mic_split = Return (Matched signal locs) →
  locs ≠ [] →
  difference_of_arrivals self signal locs = Return [(azimuth, colatitude)] →
  ∃ cx cy cz,
    get_centroid (as_locations locs) = Return [cx; cy; cz]
    ∧ cx = mean (column 0 locs) ∧ cy = mean (column 1 locs)
    ∧ cz = mean (column 2 locs)
    ∧ get_estimates difference_of_arrivals self (Some data) mic_split
      = Return (map (λ r, vadd (scale r (cos azimuth * sin colatitude,
                                        sin azimuth * sin colatitude,
                                        cos colatitude)%R) (cx, cy, cz))
                    (radius self))
    ∧ (∀ points,
         get_estimates difference_of_arrivals self (Some data) mic_split
         = Return points → length points = length (radius self))
    ∧ (azimuth = 0%R → colatitude = (PI / 2)%R →
       get_estimates difference_of_arrivals self (Some data) mic_split
       = Return (map (λ r, vadd (scale r (1, 0, 0)%R) (cx, cy, cz)) (radius self))).
Proof.
  intros Hone Hmatch Hlocs Hdoa.
  destruct (get_estimates_single_source self data mic_split signal locs
              (azimuth, colatitude) Hone Hmatch Hlocs Hdoa) as [Hcentroid Hest].
  eexists _, _, _. split; [exact Hcentroid|]. do 3 (split; [reflexivity|]).
  split; [exact Hest|]. split.
  - intros points. rewrite Hest. intros [= <-]. unfold sweep. by rewrite length_map.
  - intros -> ->. rewrite Hest. by rewrite direction_along_x.
Qed.

End SingleSource.

Lemma single_source_estimates_sweep_the_radius_witness :
  ∃ cx cy cz,
    get_centroid (as_locations [[-0.102235; -0.109982; 0.001524];
                                [-0.102235; -0.109982; -0.053340];
                                [-0.052197; -0.109982; 0.001524]]%R)
    = Return [cx; cy; cz]
    ∧ get_estimates (doa_constant 0 (PI / 2)) (init "data/" "MUSIC" 1 (Bool false) false)
                    (Some twelve_rows) ["mic2"; "mic3"; "mic6"]
      = Return (map (λ r, vadd (scale r (1, 0, 0)%R) (cx, cy, cz)) (np_arange 500 0.001)).
Proof.
  destruct (single_source_estimates_sweep_the_radius
              (doa_constant 0 (PI / 2)) (init "data/" "MUSIC" 1 (Bool false) false)
              twelve_rows ["mic2"; "mic3"; "mic6"]
              [Signal [PyInt 2]; Signal [PyInt 3]; Signal [PyInt 6]]
              [[-0.102235; -0.109982; 0.001524];
               [-0.102235; -0.109982; -0.053340];
               [-0.052197; -0.109982; 0.001524]]%R 0%R (PI / 2)%R)
    as (cx & cy & cz & Hc & _ & _ & _ & _ & _ & Hx).
  - reflexivity.
  - vm_compute. reflexivity.
  - discriminate.
  - reflexivity.
  - exists cx, cy, cz. split; [exact Hc|]. by apply Hx.
Defined.

(** ** Scheduling *)

Lemma length_mapM_outcome {A B} (f : A → outcome B) (l : list A) (ys : list B) :
  mapM f l = Return ys → length ys = length l.
Proof.
  revert ys. induction l as [|x l IH]; intros ys; simpl.
  - by intros [= <-].
  - destruct (f x) as [y|e]; [|done]. simpl.
    destruct (mapM f l) as [k|e]; [|done]. simpl.
    intros [= <-]. simpl. by rewrite (IH k).
Qed.

Lemma np_array3_same_length (outputs : list (list vec3)) (P : nat) :
  outputs ≠ [] → Forall (λ o, length o = P) outputs →
  np_array3 outputs = Return outputs.
Proof.
  intros Hne Hall. destruct outputs as [|a rest]; [done|]. simpl.
  apply Forall_cons in Hall as [Ha Hrest].
  replace (forallb _ rest) with true; [done|].
  symmetry. apply forallb_forall. intros b Hb%list_elem_of_In.
  rewrite Forall_forall in Hrest. apply Nat.eqb_eq. by rewrite Ha, (Hrest b Hb).
Qed.

Lemma length_concat_same_length {A} (outputs : list (list A)) (P : nat) :
  Forall (λ o, length o = P) outputs → length (concat outputs) = length outputs * P.
Proof.
  induction 1 as [|o outputs Ho _ IH]; [done|].
  simpl. rewrite length_app, IH, Ho. lia.
Qed.

Section Scheduler.

Variable difference_of_arrivals :
  SoundSourceLocation → list row → list (list R) → outcome (list (R * R)).

Lemma process_potential_estimates_three
    (self : SoundSourceLocation) (data : option ndarray) :
  combinations_number self = 3%Z →
  process_potential_estimates difference_of_arrivals self data
  = estimates_in_order (get_estimates difference_of_arrivals self data)
                       (round_major (combinations_nat (mics self) 3)).
Proof.
  intros Hk. unfold process_potential_estimates, estimates_in_order, mics.
  rewrite Hk.
  set (worker := get_estimates difference_of_arrivals self data). clearbody worker.
  destruct (s1_bool self); vm_compute;
    repeat match goal with
           | |- context [worker ?s] => destruct (worker s); [|reflexivity]
           end;
    reflexivity.
Qed.

(** C4: with [combinations_number = 3], [process_potential_estimates]
    enumerates 20 subsets of the pool of 6 microphones, each of 3
    microphones and no two with the same microphones; it runs
    [get_estimates] on each of them once, in 4 rounds that each take one
    subset from each of the 5 batches of 4, and its result is the
    concatenation of the per-subset arrays in that order (round-major,
    then batch-major), every point moved by the centre of the room
    [(0.34925, 0.219964, 0.2413) / 2]. *)
Theorem process_potential_estimates_rounds_of_five
    (self : SoundSourceLocation) (data : option ndarray) :
  combinations_number self = 3%Z →
  ∃ mic_list,
    combinations (mics self) (combinations_number self) = Return mic_list
    ∧ length (mics self) = 6 ∧ length mic_list = 20
    ∧ NoDup (as_set <$> mic_list)
    ∧ Forall (λ subset, length subset = 3 ∧ size (as_set subset) = 3
                        ∧ as_set subset ⊆ as_set (mics self)) mic_list
    ∧ round_major mic_list ≡ₚ mic_list
    ∧ round_major mic_list
      = (j ← seq 0 4; b ← seq 0 5; option_list (mic_list !! (4 * b + j)))
    ∧ process_potential_estimates difference_of_arrivals self data
      = estimates_in_order (get_estimates difference_of_arrivals self data)
                           (round_major mic_list)
    ∧ (∀ outputs P,
         mapM (get_estimates difference_of_arrivals self data) (round_major mic_list)
         = Return outputs →
         Forall (λ o, length o = P) outputs →
         process_potential_estimates difference_of_arrivals self data
         = Return (map (vadd center_of_room) (concat outputs))
         ∧ length (concat outputs) = 20 * P)
    ∧ center_of_room = (0.34925 / 2, 0.219964 / 2, 0.2413 / 2)%R.
Proof.
  intros Hk. exists (combinations_nat (mics self) 3).
  split; [by rewrite Hk|].
  split; [unfold mics; by destruct (s1_bool self)|].
  split; [unfold mics; by destruct (s1_bool self)|].
  split; [unfold mics; destruct (s1_bool self); compute_done|].
  split; [unfold mics; destruct (s1_bool self); compute_done|].
  split; [unfold mics; destruct (s1_bool self); compute_done|].
  split; [done|].
  split; [by apply process_potential_estimates_three|].
  split; [|done].
  intros outputs P Hout Hall.
  rewrite process_potential_estimates_three by done.
  unfold estimates_in_order. rewrite Hout. cbn [mbind outcome_bind].
  assert (length outputs = 20) as Hlen.
  { rewrite (length_mapM_outcome _ _ _ Hout).
    unfold mics. by destruct (s1_bool self). }
  rewrite (np_array3_same_length outputs P); [|by destruct outputs|done].
  split; [done|]. by rewrite (length_concat_same_length outputs P), Hlen.
Qed.

End Scheduler.

Lemma process_potential_estimates_rounds_of_five_witness :
  ∃ mic_list,
    combinations (mics (init "data/" "MUSIC" 1 (Bool false) false)) 3 = Return mic_list
    ∧ length mic_list = 20
    ∧ round_major mic_list ≡ₚ mic_list
    ∧ process_potential_estimates (doa_constant 0 0)
        (init "data/" "MUSIC" 1 (Bool false) false) (Some twelve_rows)
      = estimates_in_order
          (get_estimates (doa_constant 0 0) (init "data/" "MUSIC" 1 (Bool false) false)
                         (Some twelve_rows))
          (round_major mic_list).
Proof.
  destruct (process_potential_estimates_rounds_of_five (doa_constant 0 0)
              (init "data/" "MUSIC" 1 (Bool false) false) (Some twelve_rows))
    as (mic_list & Hlist & _ & Hlen & _ & _ & Hperm & _ & Hprocess & _);
    [reflexivity|].
  exists mic_list. split; [exact Hlist|]. split; [exact Hlen|].
  split; [exact Hperm|exact Hprocess].
Defined.

(** ** Evaluation with a constant direction and the twelve-row matrix *)

Lemma location_for_known (name : string) :
  name ∈ known_names → is_Some (location_for name).
Proof.
  intros (i & Hi & Hlt)%mic_position_known. unfold location_for. rewrite Hi. simpl.
  apply lookup_lt_is_Some_2. change (length create_microphone_locations_list) with 12.
  lia.
Qed.

Lemma get_estimates_known_names (azimuth colatitude : R)
    (self : SoundSourceLocation) (args : list string) :
  num_sources self = 1%Z → args ≠ [] → Forall (.∈ known_names) args →
  get_estimates (doa_constant azimuth colatitude) self (Some twelve_rows) args
  = Return (sweep (radius self)
              (mean (column 0 (omap location_for args)),
               mean (column 1 (omap location_for args)),
               mean (column 2 (omap location_for args)))
              (direction (azimuth, colatitude))).
Proof.
  intros Hone Hargs Hknown.
  apply (get_estimates_single_source _ _ _ _ (omap (signal_for twelve_rows) args)).
  - done.
  - by rewrite (get_mic_match_clean _ _ twelve_rows_clean Hargs).
  - destruct args as [|a args]; [done|].
    apply Forall_cons in Hknown as [[l Hl]%location_for_known _].
    by rewrite omap_cons, Hl.
  - done.
Qed.

Lemma get_estimates_known_names_length (azimuth colatitude : R)
    (self : SoundSourceLocation) (args : list string) :
  num_sources self = 1%Z → args ≠ [] → Forall (.∈ known_names) args →
  ∃ points,
    get_estimates (doa_constant azimuth colatitude) self (Some twelve_rows) args
    = Return points
    ∧ length points = length (radius self).
Proof.
  intros Hone Hargs Hknown. eexists. split.
  - by apply get_estimates_known_names.
  - unfold sweep. by rewrite length_map.
Qed.

Lemma estimates_in_order_returns (worker : list string → outcome (list vec3))
    (order : list (list string)) (P : nat) :
  order ≠ [] →
  Forall (λ subset, ∃ points, worker subset = Return points ∧ length points = P) order →
  ∃ points, estimates_in_order worker order = Return points
            ∧ length points = length order * P.
Proof.
  intros Hne Hall.
  assert (∃ outputs, mapM worker order = Return outputs
                     ∧ Forall (λ o, length o = P) outputs) as (outputs & Hout & Hlen).
  { clear Hne. induction Hall as [|s order (pts & Hs & Hp) _ (outputs & Hout & Hlen)].
    - by exists [].
    - exists (pts :: outputs). simpl. rewrite Hs. simpl. rewrite Hout. simpl.
      split; [done|by constructor]. }
  unfold estimates_in_order. rewrite Hout. cbn [mbind outcome_bind].
  pose proof (length_mapM_outcome _ _ _ Hout) as Hl.
  rewrite (np_array3_same_length outputs P); [|by destruct outputs, order|done].
  eexists. split; [done|].
  by rewrite length_map, (length_concat_same_length outputs P), Hl.
Qed.

(** ** Subset counts and the five batches *)

Lemma mapM_outcome_Raise {A B} (f : A → outcome B) (l : list A) (e : exn) :
  mapM f l = Raise e → ∃ x, x ∈ l ∧ f x = Raise e.
Proof.
  induction l as [|x l IH]; simpl; [done|].
  destruct (f x) as [y|e'] eqn:Hx; simpl.
  - destruct (mapM f l) as [k|e'']; simpl; [done|].
    intros [= ->]. destruct IH as (x' & Hin & Hx'); [done|].
    exists x'. split; [by right|done].
  - intros [= ->]. exists x. split; [left|done].
Qed.

Section SubsetCounts.

Variable difference_of_arrivals :
  SoundSourceLocation → list row → list (list R) → outcome (list (R * R)).

(** With 6 subsets there is one subset per batch and one round, which
    takes the first five batches. *)
Lemma process_potential_estimates_five
    (self : SoundSourceLocation) (data : option ndarray) :
  combinations_number self = 5%Z →
  process_potential_estimates difference_of_arrivals self data
  = estimates_in_order (get_estimates difference_of_arrivals self data)
                       (take 5 (combinations_nat (mics self) 5)).
Proof.
  intros Hk. unfold process_potential_estimates, estimates_in_order, mics.
  rewrite Hk.
  set (worker := get_estimates difference_of_arrivals self data). clearbody worker.
  destruct (s1_bool self); vm_compute;
    repeat match goal with
           | |- context [worker ?s] => destruct (worker s); [|reflexivity]
           end;
    reflexivity.
Qed.

(** With [combinations_number = 3], as the constructor sets it, either
    pool has 20 subsets, a multiple of 5, each of them is dispatched
    exactly once, and the function fails only with the failure of a
    subset's estimate or of the stacking of the estimates. *)
Theorem twenty_subsets_fill_five_batches
    (self : SoundSourceLocation) (data : option ndarray) :
  combinations_number self = 3%Z →
  ∃ mic_list,
    combinations (mics self) (combinations_number self) = Return mic_list
    ∧ length mic_list = 5 * 4
    ∧ length mic_list `mod` 5 = 0
    ∧ round_major mic_list ≡ₚ mic_list
    ∧ (∀ e,
         process_potential_estimates difference_of_arrivals self data = Raise e →
         (∃ subset, subset ∈ mic_list
                    ∧ get_estimates difference_of_arrivals self data subset = Raise e)
         ∨ (∃ outputs,
              mapM (get_estimates difference_of_arrivals self data)
                   (round_major mic_list) = Return outputs
              ∧ length outputs = 20 ∧ np_array3 outputs = Raise e))
    ∧ (∀ points,
         process_potential_estimates difference_of_arrivals self data = Return points →
         ∃ outputs,
           mapM (get_estimates difference_of_arrivals self data)
                (round_major mic_list) = Return outputs
           ∧ length outputs = 20
           ∧ points = map (vadd center_of_room) (concat outputs)).
Proof.
  intros Hk. exists (combinations_nat (mics self) 3).
  assert (round_major (combinations_nat (mics self) 3)
          ≡ₚ combinations_nat (mics self) 3) as Hperm.
  { unfold mics. destruct (s1_bool self); compute_done. }
  assert (length (round_major (combinations_nat (mics self) 3)) = 20) as Hlen.
  { unfold mics. by destruct (s1_bool self). }
  split; [by rewrite Hk|].
  split; [unfold mics; by destruct (s1_bool self)|].
  split; [unfold mics; by destruct (s1_bool self)|].
  split; [done|].
  rewrite (process_potential_estimates_three _ _ _ Hk). unfold estimates_in_order.
  destruct (mapM _ (round_major _)) as [outputs|e'] eqn:Hout; cbn [mbind outcome_bind].
  - pose proof (length_mapM_outcome _ _ _ Hout) as Hl. rewrite Hlen in Hl. split.
    + intros e He. right. exists outputs. split; [done|]. split; [done|].
      destruct (np_array3 outputs); [done|]. cbn [mbind outcome_bind] in He.
      by injection He as ->.
    + intros points Hp. exists outputs. split; [done|]. split; [done|].
      unfold np_array3 in Hp. destruct outputs as [|a rest]; [done|].
      destruct (forallb _ rest); [|done]. cbn [mbind outcome_bind] in Hp.
      by injection Hp as <-.
  - split; [|done]. intros e [= <-]. left.
    apply mapM_outcome_Raise in Hout as (subset & Hin & Hs).
    exists subset. split; [by rewrite <- Hperm|done].
Qed.

End SubsetCounts.

Lemma twenty_subsets_fill_five_batches_witness :
  ∃ mic_list,
    combinations (mics (init "data/" "MUSIC" 1 (Bool false) false)) 3 = Return mic_list
    ∧ length mic_list = 20
    ∧ length mic_list `mod` 5 = 0
    ∧ round_major mic_list ≡ₚ mic_list.
Proof.
  destruct (twenty_subsets_fill_five_batches (doa_constant 0 0)
              (init "data/" "MUSIC" 1 (Bool false) false) (Some twelve_rows))
    as (mic_list & Hlist & Hlen & Hmod & Hperm & _); [reflexivity|].
  exists mic_list. split; [exact Hlist|]. split; [exact Hlen|].
  split; [exact Hmod|exact Hperm].
Defined.

(** ** The generator *)

Section Generator.

Variable difference_of_arrivals :
  SoundSourceLocation → list row → list (list R) → outcome (list (R * R)).
Variable loadmat : string → outcome (gmap string ndarray).

Lemma next_cons (self : SoundSourceLocation) (name : string) (rest : generator) :
  next difference_of_arrivals loadmat self (name :: rest)
  = match visit difference_of_arrivals loadmat (flag_after self name) name with
    | Return points => (flag_after self name, rest, Yield (name, points))
    | Raise e => (flag_after self name, [], Raised e)
    end.
Proof. reflexivity. Qed.

(** A generator all of whose visits return is drained without an
    exception; the object ends as the names leave it. *)
Lemma drain_all (I : SoundSourceLocation → Prop) (names : generator) :
  (∀ self name, I self → I (flag_after self name)) →
  (∀ self name, I self → name ∈ names →
     ∃ points, visit difference_of_arrivals loadmat self name = Return points) →
  ∀ self fuel, I self → length names < fuel →
    ∃ items,
      drain difference_of_arrivals loadmat fuel self names
      = (foldl flag_after self names, items, None)
      ∧ items.*1 = names
      ∧ ∀ name rest, names = name :: rest →
          ∃ points others, items = (name, points) :: others
                           ∧ visit difference_of_arrivals loadmat
                               (flag_after self name) name = Return points.
Proof.
  intros Hinv. induction names as [|name names IH]; intros Hvisit self fuel Hself Hfuel.
  - destruct fuel as [|fuel]; [simpl in Hfuel; lia|].
    exists []. split; [done|]. split; [done|]. by intros ? ? [=].
  - destruct fuel as [|fuel]; [simpl in Hfuel; lia|].
    destruct (Hvisit (flag_after self name) name) as [points Hpoints];
      [by apply Hinv|left|].
    destruct (IH (λ s n Hs Hn, Hvisit s n Hs (proj2 (elem_of_cons _ _ _) (or_intror Hn)))
                (flag_after self name) fuel) as (items & Hdrain & Hnames & _);
      [by apply Hinv|simpl in Hfuel; lia|].
    exists ((name, points) :: items).
    cbn [drain]. rewrite next_cons, Hpoints, Hdrain.
    split; [done|]. split; [by rewrite fmap_cons, Hnames|].
    intros ? ? [= <- <-]. by exists points, items.
Qed.

End Generator.

Lemma foldl_flag_after_sound_list (self : SoundSourceLocation) :
  foldl flag_after self sound_list = set_s1_bool self false.
Proof. reflexivity. Qed.

Lemma estimates_in_order_head (worker : list string → outcome (list vec3))
    (subset : list string) (order : list (list string))
    (points : list vec3) (p : vec3) (ps : list vec3) :
  estimates_in_order worker (subset :: order) = Return points →
  worker subset = Return (p :: ps) →
  hd_error points = Some (vadd center_of_room p).
Proof.
  intros Hpoints Hs. unfold estimates_in_order in Hpoints. simpl in Hpoints.
  rewrite Hs in Hpoints. simpl in Hpoints.
  destruct (mapM worker order) as [k|e]; [|done]. simpl in Hpoints.
  destruct (forallb _ k); [|done]. simpl in Hpoints. by injection Hpoints as <-.
Qed.

Lemma sound_data_twelve (self : SoundSourceLocation) (name : string) :
  recovered self = Bool false → name ∈ sound_list →
  get_sound_data loadmat_twelve self name = Return (Some twelve_rows).
Proof.
  intros Hrec Hname. unfold get_sound_data. rewrite Hrec.
  assert (∃ path key, source_name_dict false !! name = Some (path, key)
                      ∧ ({[ "S1" := twelve_rows; "S2" := twelve_rows ]}
                           : gmap string ndarray) !! key = Some twelve_rows)
    as (path & key & -> & Hkey).
  { elem_of_cases Hname; subst name;
      (eexists _, _; split; [vm_compute; reflexivity|vm_compute; reflexivity]). }
  unfold loadmat_twelve. cbn [mbind outcome_bind]. by rewrite Hkey.
Qed.

Lemma process_twelve (azimuth colatitude : R) (self : SoundSourceLocation) :
  num_sources self = 1%Z → combinations_number self = 3%Z →
  ∃ points,
    process_potential_estimates (doa_constant azimuth colatitude) self (Some twelve_rows)
    = Return points
    ∧ length points = 20 * length (radius self).
Proof.
  intros Hone Hk. rewrite (process_potential_estimates_three _ _ _ Hk).
  destruct (estimates_in_order_returns
              (get_estimates (doa_constant azimuth colatitude) self (Some twelve_rows))
              (round_major (combinations_nat (mics self) 3)) (length (radius self)))
    as (points & Hpoints & Hlen).
  - unfold mics. by destruct (s1_bool self).
  - unfold mics.
    destruct (s1_bool self);
      match goal with
      | |- Forall _ ?l => set (order := l); vm_compute in (value of order); subst order
      end;
      repeat (apply Forall_cons; split;
              [apply get_estimates_known_names_length; [done|done|compute_done]|]);
      constructor.
  - exists points. split; [done|]. rewrite Hlen. unfold mics.
    by destruct (s1_bool self).
Qed.

Lemma first_point_of_pass (self : SoundSourceLocation) (points : list vec3)
    (first : list string) (order : list (list string)) :
  num_sources self = 1%Z → combinations_number self = 3%Z →
  radius self = np_arange 500 0.001 →
  round_major (combinations_nat (mics self) 3) = first :: order →
  first ≠ [] → Forall (.∈ known_names) first →
  process_potential_estimates (doa_constant 0 0) self (Some twelve_rows) = Return points →
  hd_error points
  = Some (vadd center_of_room
            (vadd (scale (0 + INR 0 * 0.001) (direction (0, 0)))%R
                  (mean (column 0 (omap location_for first)),
                   mean (column 1 (omap location_for first)),
                   mean (column 2 (omap location_for first))))).
Proof.
  intros Hone Hk Hradius Horder Hfirst Hknown Hpoints.
  rewrite (process_potential_estimates_three _ _ _ Hk), Horder in Hpoints.
  eapply estimates_in_order_head; [exact Hpoints|].
  rewrite (get_estimates_known_names 0 0 self first Hone Hfirst Hknown), Hradius.
  reflexivity.
Qed.

Lemma locations_mic2_mic3_mic6 :
  omap location_for ["mic2"; "mic3"; "mic6"]
  = [[-0.102235; -0.109982; 0.001524]; [-0.102235; -0.109982; -0.053340];
     [-0.052197; -0.109982; 0.001524]]%R.
Proof.
  change ["mic2"; "mic3"; "mic6"] with (map mic_name [2; 3; 6]).
  rewrite !map_cons, !omap_cons. unfold location_for.
  rewrite !mic_position_name by lia. reflexivity.
Qed.

Lemma locations_mic1_mic2_mic5 :
  omap location_for ["mic1"; "mic2"; "mic5"]
  = [[-0.102235; -0.109982; 0.056388]; [-0.102235; -0.109982; 0.001524];
     [-0.052197; -0.109982; 0.056388]]%R.
Proof.
  change ["mic1"; "mic2"; "mic5"] with (map mic_name [1; 2; 5]).
  rewrite !map_cons, !omap_cons. unfold location_for.
  rewrite !mic_position_name by lia. reflexivity.
Qed.

(** C6 fails on the code: the generator sets [s1_bool] to [False] at the
    first S2 name and nothing sets it back.  Here a fresh object is passed
    through [generate_potential_sources] twice, with the same store and the
    same adapter: both passes yield the 48 names without an exception, but
    the second one starts with [s1_bool = False], so it takes the S2 pool
    for S1_Cycle0 where the first pass took the S1 pool, and yields other
    points for it. *)
Theorem second_pass_takes_the_S2_pool_for_S1 :
  ∃ self1 items1 self2 items2 points1 points2,
    list_of (doa_constant 0 0) loadmat_twelve fresh generate_potential_sources
    = (self1, items1, None)
    ∧ list_of (doa_constant 0 0) loadmat_twelve self1 generate_potential_sources
      = (self2, items2, None)
    ∧ items1.*1 = sound_list ∧ items2.*1 = sound_list
    ∧ s1_bool fresh = true ∧ self1 = set_s1_bool fresh false
    ∧ items1 !! 0 = Some ("S1_Cycle0", points1)
    ∧ process_potential_estimates (doa_constant 0 0) fresh (Some twelve_rows)
      = Return points1
    ∧ mics fresh = ["mic2"; "mic3"; "mic6"; "mic7"; "mic10"; "mic11"]
    ∧ items2 !! 0 = Some ("S1_Cycle0", points2)
    ∧ process_potential_estimates (doa_constant 0 0) self1 (Some twelve_rows)
      = Return points2
    ∧ mics self1 = ["mic1"; "mic2"; "mic5"; "mic6"; "mic9"; "mic10"]
    ∧ points1 ≠ points2
    ∧ items1 ≠ items2.
Proof.
  set (I := λ s, recovered s = Bool false ∧ num_sources s = 1%Z
                 ∧ combinations_number s = 3%Z).
  assert (∀ self name, I self → I (flag_after self name)) as Hinv.
  { intros self name Hself. unfold flag_after. by case_bool_decide. }
  assert (∀ self name, I self → name ∈ sound_list →
            visit (doa_constant 0 0) loadmat_twelve self name
            = process_potential_estimates (doa_constant 0 0) self (Some twelve_rows))
    as Hvisit.
  { intros self name (Hrec & _) Hname. unfold visit.
    by rewrite (sound_data_twelve self name Hrec Hname). }
  assert (∀ self name, I self → name ∈ sound_list →
            ∃ points, visit (doa_constant 0 0) loadmat_twelve self name = Return points)
    as Hreturns.
  { intros self name Hself Hname. rewrite (Hvisit self name Hself Hname).
    destruct Hself as (_ & Hone & Hk).
    destruct (process_twelve 0 0 self Hone Hk) as (points & Hpoints & _). eauto. }
  assert (I fresh) as Hfresh by done.
  assert (I (set_s1_bool fresh false)) as Hused by done.
  destruct (drain_all (doa_constant 0 0) loadmat_twelve I sound_list Hinv Hreturns
              fresh (S (length sound_list)) Hfresh (Nat.lt_succ_diag_r _))
    as (items1 & Hdrain1 & Hnames1 & Hhead1).
  destruct (drain_all (doa_constant 0 0) loadmat_twelve I sound_list Hinv Hreturns
              (set_s1_bool fresh false) (S (length sound_list)) Hused
              (Nat.lt_succ_diag_r _))
    as (items2 & Hdrain2 & Hnames2 & Hhead2).
  rewrite foldl_flag_after_sound_list in Hdrain1, Hdrain2.
  destruct (Hhead1 "S1_Cycle0" _ eq_refl) as (points1 & others1 & Hitems1 & Hp1).
  destruct (Hhead2 "S1_Cycle0" _ eq_refl) as (points2 & others2 & Hitems2 & Hp2).
  change (flag_after fresh "S1_Cycle0") with fresh in Hp1.
  change (flag_after (set_s1_bool fresh false) "S1_Cycle0")
    with (set_s1_bool fresh false) in Hp2.
  assert ("S1_Cycle0" ∈ sound_list) as Hin by left.
  rewrite (Hvisit fresh "S1_Cycle0" Hfresh Hin) in Hp1.
  rewrite (Hvisit (set_s1_bool fresh false) "S1_Cycle0" Hused Hin) in Hp2.
  assert (points1 ≠ points2) as Hdiff.
  { intros Heq.
    pose proof (first_point_of_pass fresh points1 ["mic2"; "mic3"; "mic6"] _
                  eq_refl eq_refl eq_refl eq_refl) as H1.
    pose proof (first_point_of_pass (set_s1_bool fresh false) points2
                  ["mic1"; "mic2"; "mic5"] _ eq_refl eq_refl eq_refl eq_refl) as H2.
    specialize (H1 ltac:(discriminate) ltac:(compute_done) Hp1).
    specialize (H2 ltac:(discriminate) ltac:(compute_done) Hp2).
    rewrite Heq, H2 in H1.
    rewrite locations_mic2_mic3_mic6, locations_mic1_mic2_mic5 in H1.
    cbv [vadd scale direction center_of_room room_dim] in H1.
    injection H1 as Hz. unfold mean in Hz. simpl in Hz. lra. }
  exists (set_s1_bool fresh false), items1, (set_s1_bool fresh false), items2,
         points1, points2.
  split; [exact Hdrain1|]. split; [exact Hdrain2|].
  split; [done|]. split; [done|]. split; [done|]. split; [done|].
  split; [by rewrite Hitems1|]. split; [done|]. split; [done|].
  split; [by rewrite Hitems2|]. split; [done|]. split; [done|].
  split; [done|]. rewrite Hitems1, Hitems2. intros [= Heq _]. by apply Hdiff.
Qed.

(** * Further properties of the code *)

(** ** Reading the sound data *)

Lemma source_name_dict_lookup (recovered : bool) (source cycle : nat) :
  1 ≤ source ≤ 2 → cycle < 24 →
  source_name_dict recovered !! cycle_name source cycle
  = Some (cycle_file recovered source cycle, cycle_key source).
Proof.
  intros Hs Hc.
  assert (source = 1 ∨ source = 2) as [-> | ->] by lia;
    (do 24 (destruct cycle as [|cycle]; [destruct recovered; vm_compute; reflexivity|]);
     lia).
Qed.

(** X1: for a boolean [recovered] and the name of a source in {S1, S2} with
    a cycle in 0 .. 23, [get_sound_data] reads the one file
    [filepath + "S<x>/S<x>_Cycle<y>"] (under ["Recovered_S<x>/"] when
    [recovered] is set) and returns its variable ["S<x>"]: [None] when the
    file lacks it, and whatever the store raises when it raises. *)
Theorem get_sound_data_reads_the_file_of_the_cycle
    (loadmat : string → outcome (gmap string ndarray))
    (self : SoundSourceLocation) (b : bool) (source cycle : nat) :
  recovered self = Bool b → 1 ≤ source ≤ 2 → cycle < 24 →
  get_sound_data loadmat self (cycle_name source cycle)
  = (data ← loadmat (filepath self +:+ cycle_file b source cycle);
     Return (data !! cycle_key source))
  ∧ (∀ e, loadmat (filepath self +:+ cycle_file b source cycle) = Raise e →
          get_sound_data loadmat self (cycle_name source cycle) = Raise e)
  ∧ (∀ vars, loadmat (filepath self +:+ cycle_file b source cycle) = Return vars →
             get_sound_data loadmat self (cycle_name source cycle)
             = Return (vars !! cycle_key source)).
Proof.
  intros Hrec Hs Hc.
  assert (get_sound_data loadmat self (cycle_name source cycle)
          = (data ← loadmat (filepath self +:+ cycle_file b source cycle);
             Return (data !! cycle_key source))) as Heq.
  { unfold get_sound_data. by rewrite Hrec, (source_name_dict_lookup b _ _ Hs Hc). }
  split; [exact Heq|]. split.
  - intros e He. by rewrite Heq, He.
  - intros vars Hvars. by rewrite Heq, Hvars.
Qed.

Lemma get_sound_data_reads_the_file_of_the_cycle_witness :
  get_sound_data loadmat_twelve fresh "S2_Cycle7" = Return (Some twelve_rows)
  ∧ get_sound_data loadmat_empty fresh "S2_Cycle7" = Return None
  ∧ get_sound_data loadmat_nothing fresh "S2_Cycle7"
    = Raise (ValueError "no file data/S2/S2_Cycle7").
Proof.
  destruct (get_sound_data_reads_the_file_of_the_cycle loadmat_twelve fresh false 2 7)
    as (_ & _ & H1); [reflexivity|lia|lia|].
  destruct (get_sound_data_reads_the_file_of_the_cycle loadmat_empty fresh false 2 7)
    as (_ & _ & H2); [reflexivity|lia|lia|].
  destruct (get_sound_data_reads_the_file_of_the_cycle loadmat_nothing fresh false 2 7)
    as (_ & H3 & _); [reflexivity|lia|lia|].
  split; [exact (H1 _ eq_refl)|]. split; [exact (H2 _ eq_refl)|exact (H3 _ eq_refl)].
Defined.

(** X2: [get_sound_data] rejects its input before it touches the store:
    when [recovered] is not a boolean (a [TypeError], also for an unknown
    name), or when the name is not a cycle name (a [NameError]), the result
    is the same raised exception whatever the store holds. *)
Theorem get_sound_data_rejects_before_reading
    (loadmat loadmat' : string → outcome (gmap string ndarray))
    (self : SoundSourceLocation) (name : string) :
  (∃ shown, recovered self = NotBool shown) ∨ name ∉ known_cycle_names →
  get_sound_data loadmat self name = get_sound_data loadmat' self name
  ∧ raises (get_sound_data loadmat self name)
  ∧ ((∃ shown, recovered self = NotBool shown) →
     ∃ msg, get_sound_data loadmat self name = Raise (TypeError msg))
  ∧ ((∃ b, recovered self = Bool b) →
     get_sound_data loadmat self name
     = Raise (NameError (name +:+ " name not in cycle list"))).
Proof.
  intros Hbad. unfold get_sound_data.
  destruct (recovered self) as [b|shown] eqn:Hrec.
  - destruct Hbad as [[shown [=]]|Hname].
    rewrite (source_name_dict_keys b name Hname).
    split; [done|]. split; [done|]. split; [by intros [? [=]]|done].
  - split; [done|]. split; [done|]. split; [eauto|by intros [? [=]]].
Qed.

Lemma get_sound_data_rejects_before_reading_witness :
  get_sound_data loadmat_twelve (init "data/" "MUSIC" 1 (NotBool "None") false) "S9_Cycle0"
  = get_sound_data loadmat_nothing (init "data/" "MUSIC" 1 (NotBool "None") false)
                   "S9_Cycle0"
  ∧ ∃ msg, get_sound_data loadmat_twelve (init "data/" "MUSIC" 1 (NotBool "None") false)
                          "S9_Cycle0" = Raise (TypeError msg).
Proof.
  destruct (get_sound_data_rejects_before_reading loadmat_twelve loadmat_nothing
              (init "data/" "MUSIC" 1 (NotBool "None") false) "S9_Cycle0")
    as (Hsame & _ & Htype & _).
  - left. by exists "None".
  - split; [exact Hsame|]. apply Htype. by exists "None".
Defined.

(** ** The centroid and the matching, once more *)

(** X3: [get_centroid] reports the first check that fails, in the order
    empty, [None], differing lengths, not a float: a group with a [None]
    raises the [None] error even when it is ragged as well, and a ragged
    group raises the length error even when it holds coordinates that are
    not floats. *)
Theorem get_centroid_reports_the_first_failed_check (locs : list location) :
  (has_no_coordinates locs →
   get_centroid locs = Raise (ValueError "Error. Microphone location list is empty."))
  ∧ (¬ has_no_coordinates locs → contains_None locs →
     get_centroid locs
     = Raise (ValueError "Error. Microphone location list contains None."))
  ∧ (¬ has_no_coordinates locs → ¬ contains_None locs → differing_lengths locs →
     get_centroid locs
     = Raise (ValueError "Error. Not all microphone locations have same length!"))
  ∧ (¬ has_no_coordinates locs → ¬ contains_None locs → ¬ differing_lengths locs →
     has_coordinate_not isinstance_float locs →
     get_centroid locs
     = Raise (TypeError "Error. Microphone location list does not contain a float type.")).
Proof.
  unfold get_centroid.
  destruct (py_not _) eqn:E1.
  { apply flat_empty in E1. repeat split; done. }
  assert (¬ has_no_coordinates locs) as H1.
  { intros H%flat_empty. congruence. }
  split; [done|].
  destruct (existsb is_None _) eqn:E2.
  { apply None_in_flat in E2. repeat split; done. }
  assert (¬ contains_None locs) as H2.
  { intros H%None_in_flat. congruence. }
  split; [done|].
  assert (NoLocation ∉ locs) as Hnone by (intros H; apply H2; by left).
  destruct (check_list_of_lists_are_same_length _) eqn:E3; simpl.
  2:{ apply same_length_false_inv in E3; [|done]. repeat split; done. }
  assert (¬ differing_lengths locs) as H3.
  { intros H%same_length_false. congruence. }
  split; [done|]. intros _ _ _ H4.
  apply non_float_in_flat in H4; [|done]. by rewrite H4.
Qed.

Lemma get_centroid_reports_the_first_failed_check_witness :
  get_centroid [Coords [PyInt 1; PyInt 2]; NoLocation; Coords [PyStr "x"]]
  = Raise (ValueError "Error. Microphone location list contains None.")
  ∧ get_centroid [Coords [PyInt 1; PyInt 2]; Coords [PyStr "x"]]
    = Raise (ValueError "Error. Not all microphone locations have same length!").
Proof.
  destruct (get_centroid_reports_the_first_failed_check
              [Coords [PyInt 1; PyInt 2]; NoLocation; Coords [PyStr "x"]])
    as (_ & HNone & _).
  destruct (get_centroid_reports_the_first_failed_check
              [Coords [PyInt 1; PyInt 2]; Coords [PyStr "x"]])
    as (_ & _ & Hlen & _).
  split.
  - apply HNone.
    + intros H. by apply Forall_cons in H as [? _].
    + left. apply elem_of_cons. right. left.
  - apply Hlen.
    + intros H. by apply Forall_cons in H as [? _].
    + intros [H|(cs & H & Hc)]; [by elem_of_cases H|].
      elem_of_cases H; injection H as ->; by elem_of_cases Hc.
    + exists [PyInt 1; PyInt 2], [PyStr "x"].
      split; [left|]. split; [right; left|]. simpl. lia.
Defined.

Lemma omap_aligned {A B C} (f : A → option B) (g : A → option C) (l : list A) :
  (∀ a, is_Some (f a) ↔ is_Some (g a)) →
  length (omap f l) = length (omap g l)
  ∧ length (omap f l) ≤ length l
  ∧ ∀ i x, omap f l !! i = Some x →
      ∃ a y, a ∈ l ∧ f a = Some x ∧ g a = Some y ∧ omap g l !! i = Some y.
Proof.
  intros Hfg. induction l as [|a l (IHlen & IHle & IH)].
  - split; [done|]. split; [done|]. by intros [].
  - rewrite !omap_cons. destruct (f a) as [x|] eqn:Hf.
    + destruct (proj1 (Hfg a)) as [y Hg]; [by rewrite Hf|]. rewrite Hg. simpl.
      split; [by rewrite IHlen|]. split; [lia|].
      intros [|i] x' Hi; simpl in Hi.
      * injection Hi as <-. exists a, y. split; [left|done].
      * destruct (IH i x' Hi) as (a' & y' & Hin & Hfa & Hga & Hy).
        exists a', y'. split; [by right|done].
    + destruct (g a) as [y|] eqn:Hg.
      { destruct (proj2 (Hfg a)) as [? ?]; [by rewrite Hg|congruence]. }
      split; [done|]. split; [simpl; lia|].
      intros i x' Hi. destruct (IH i x' Hi) as (a' & y' & Hin & Hfa & Hga & Hy).
      exists a', y'. split; [by right|done].
Qed.

(** X4: whatever is requested, the two lists that
    [get_mic_match_with_sound_data] returns stay aligned: they have the same
    length, at most that of the request, and the i-th signal and the i-th
    location belong to one and the same requested microphone: row [j] of
    the matrix and entry [j] of the layout, for the position [j] of a
    requested name. *)
Theorem matched_signals_and_locations_are_aligned
    (data : ndarray) (args : list string)
    (signal_list : list row) (mic_location : list (list R)) :
  get_mic_match_with_sound_data data args = Return (Matched signal_list mic_location) →
  length signal_list = length mic_location
  ∧ length signal_list ≤ length args
  ∧ ∀ i signal, signal_list !! i = Some signal →
      ∃ name j, name ∈ args ∧ mic_position name = Some j ∧ j < 12
                ∧ tolist data !! j = Some signal
                ∧ mic_location !! i = create_microphone_locations_list !! j
                ∧ is_Some (mic_location !! i).
Proof.
  intros (Hclean & Hargs & Hlen & -> & ->)%get_mic_match_Matched_inv.
  destruct (omap_aligned (signal_for data) location_for args) as (H1 & H2 & H3).
  { intros name. unfold signal_for, location_for.
    destruct (mic_position name) as [j|] eqn:Hj; simpl; [|done].
    assert (j < 12) as Hlt.
    { unfold mic_position in Hj. destruct (list_find _ _) as [[j' n]|] eqn:E; [|done].
      injection Hj as ->. by apply list_find_Some in E as (?%lookup_lt_Some & _). }
    split; intros _; apply lookup_lt_is_Some_2; [done|unfold len in Hlen; lia]. }
  split; [done|]. split; [done|].
  intros i signal Hi. destruct (H3 i signal Hi) as (name & loc & Hin & Hs & Hl & Hloc).
  unfold signal_for in Hs. unfold location_for in Hl.
  destruct (mic_position name) as [j|] eqn:Hj; [simpl in Hs, Hl|done].
  exists name, j. split; [done|]. split; [done|].
  split; [by apply lookup_lt_Some in Hl|].
  split; [done|]. rewrite Hloc, Hl. split; [done|by eexists].
Qed.

Lemma matched_signals_and_locations_are_aligned_witness :
  length [Signal [PyInt 3]; Signal [PyInt 1]; Signal [PyInt 3]]
  = length [[-0.102235; -0.109982; -0.053340]; [-0.102235; -0.109982; 0.056388];
            [-0.102235; -0.109982; -0.053340]]%R
  ∧ length [Signal [PyInt 3]; Signal [PyInt 1]; Signal [PyInt 3]]
    ≤ length ["mic3"; "mic0"; "mic1"; "mic3"].
Proof.
  destruct (matched_signals_and_locations_are_aligned twelve_rows
              ["mic3"; "mic0"; "mic1"; "mic3"]
              [Signal [PyInt 3]; Signal [PyInt 1]; Signal [PyInt 3]]
              [[-0.102235; -0.109982; -0.053340]; [-0.102235; -0.109982; 0.056388];
               [-0.102235; -0.109982; -0.053340]]%R)
    as (H1 & H2 & _).
  - vm_compute. reflexivity.
  - split; [exact H1|exact H2].
Defined.

Lemma lone_None (data : ndarray) :
  Nat.eqb (np_size data) 1 && None_in_tolist data = true ↔ data = Array1 [PyNone].
Proof.
  split; [|by intros ->].
  intros [Hsize%Nat.eqb_eq Hnone]%andb_true_iff.
  destruct data as [cells|rows]; simpl in *.
  - destruct cells as [|c [|c' cells]]; simpl in *; try lia.
    unfold None_in_tolist in Hnone. simpl in Hnone. by destruct c.
  - exfalso. unfold None_in_tolist in Hnone. simpl in Hnone.
    clear Hsize. by induction rows.
Qed.

(** X5: the checks of [get_mic_match_with_sound_data] come in a fixed order
    and all raise a [ValueError]: an array without rows, and also the
    one-dimensional array that holds nothing but a [None], is reported as
    empty; any other [None] as a [None]; then an empty-string row; then an
    empty request.  The row count is looked at last, so a matrix with a
    [None] raises whatever its row count. *)
Theorem signal_checks_come_in_order (data : ndarray) (args : list string) :
  (tolist data = [] ∨ data = Array1 [PyNone] →
   get_mic_match_with_sound_data data args
   = Raise (ValueError "Error. The signal is empty."))
  ∧ (tolist data ≠ [] → data ≠ Array1 [PyNone] → None_in data = true →
     get_mic_match_with_sound_data data args
     = Raise (ValueError "Error. The signal contains None."))
  ∧ (tolist data ≠ [] → None_in data = false → empty_str_in_tolist data = true →
     get_mic_match_with_sound_data data args
     = Raise (ValueError "Error. The signal contains an empty string."))
  ∧ (clean data → args = [] →
     get_mic_match_with_sound_data data args
     = Raise (ValueError "Error. Microphone list is empty."))
  ∧ (raises (get_mic_match_with_sound_data data args) →
     ∃ msg, get_mic_match_with_sound_data data args = Raise (ValueError msg)).
Proof.
  assert (∀ msg, ∃ msg', @Raise mic_match (ValueError msg) = Raise (ValueError msg'))
    as Hvalue by eauto.
  unfold get_mic_match_with_sound_data.
  destruct (py_not (tolist data)) eqn:E1.
  { apply py_not_true in E1. cbn [orb].
    split; [done|]. split; [done|]. split; [done|]. split; [by intros [? _]|eauto]. }
  assert (tolist data ≠ []) as Hrows by (intros E; by rewrite E in E1).
  cbn [orb]. destruct (_ && _) eqn:E2.
  { apply lone_None in E2 as ->.
    split; [done|]. split; [done|]. split; [done|]. split; [by intros (_ & ? & _)|eauto]. }
  assert (data ≠ Array1 [PyNone]) as Hlone.
  { intros H%lone_None. congruence. }
  split; [by intros [?|?]|].
  destruct (None_in data) eqn:E3.
  { split; [done|]. split; [done|].
    split; [intros (_ & ? & _); congruence|eauto]. }
  split; [done|].
  destruct (empty_str_in_tolist data) eqn:E4.
  { split; [done|]. split; [intros (_ & _ & ?); congruence|eauto]. }
  split; [done|]. rewrite convert_names_nonempty.
  destruct (py_not args) eqn:E5.
  { split; [done|eauto]. }
  split; [intros _ ->; done|].
  destruct (Nat.eqb (length create_microphone_locations_list) (len data));
    [destruct (foldl _ _ _)|]; intros [].
Qed.

Lemma signal_checks_come_in_order_witness :
  get_mic_match_with_sound_data (Array2 [[PyFloat 0; PyNone]; [PyFloat 1; PyFloat 2]]) []
  = Raise (ValueError "Error. The signal contains None.")
  ∧ get_mic_match_with_sound_data (Array1 [PyNone]) ["mic1"]
    = Raise (ValueError "Error. The signal is empty.").
Proof.
  destruct (signal_checks_come_in_order
              (Array2 [[PyFloat 0; PyNone]; [PyFloat 1; PyFloat 2]]) [])
    as (_ & HNone & _).
  destruct (signal_checks_come_in_order (Array1 [PyNone]) ["mic1"]) as (Hempty & _).
  split; [by apply HNone|]. apply Hempty. by right.
Defined.

(** ** Microphone numbers *)

Lemma to_uint_not_Nil (n : nat) : Nat.to_uint n ≠ Decimal.Nil.
Proof.
  intros H. pose proof (Unsigned.of_to n) as Hn. rewrite H in Hn. simpl in Hn.
  subst n. discriminate H.
Qed.

Lemma str_inj (a b : nat) : str a = str b → a = b.
Proof.
  unfold str. intros H. apply Unsigned.to_uint_inj.
  pose proof (NilZero.usu _ (to_uint_not_Nil a)) as Ha.
  pose proof (NilZero.usu _ (to_uint_not_Nil b)) as Hb.
  rewrite H in Ha. rewrite Ha in Hb. by injection Hb.
Qed.

Lemma mic_name_known (k : nat) : mic_name k ∈ known_names ↔ 1 ≤ k ≤ 12.
Proof.
  unfold known_names. rewrite list_elem_of_fmap. split.
  - intros (k' & Hk & Hin). apply elem_of_seq in Hin.
    unfold mic_name in Hk. injection Hk as Hk. apply str_inj in Hk. lia.
  - intros Hk. exists k. split; [done|]. apply elem_of_seq. lia.
Qed.

(** X6: only the numbers 1 .. 12 name a microphone: on a 12-row matrix
    that passes the checks, a request ["mic<k>"] for numbers [k] returns, in
    the order of the request, row [k - 1] and layout entry [k - 1] for each
    [k] in 1 .. 12 and nothing for any other number (0, 13, ...), without
    an exception. *)
Theorem only_the_numbers_1_to_12_are_matched (data : ndarray) (ks : list nat) :
  clean data → len data = 12 → ks ≠ [] →
  get_mic_match_with_sound_data data (map mic_name ks)
  = Return (Matched
      (omap (λ k, if decide (1 ≤ k ≤ 12) then tolist data !! (k - 1) else None) ks)
      (omap (λ k, if decide (1 ≤ k ≤ 12)
                  then create_microphone_locations_list !! (k - 1) else None) ks)).
Proof.
  intros Hclean Hlen Hks.
  rewrite (get_mic_match_clean data (map mic_name ks) Hclean) by (by destruct ks).
  rewrite Hlen. simpl Nat.eqb. cbv iota. clear Hks. f_equal. f_equal.
  - induction ks as [|k ks IH]; [done|]. rewrite map_cons, !omap_cons, IH.
    unfold signal_for at 1. destruct (decide (1 ≤ k ≤ 12)) as [Hk|Hk].
    + by rewrite (mic_position_name k Hk).
    + rewrite mic_position_unknown; [done|]. by rewrite mic_name_known.
  - induction ks as [|k ks IH]; [done|]. rewrite map_cons, !omap_cons, IH.
    unfold location_for at 1. destruct (decide (1 ≤ k ≤ 12)) as [Hk|Hk].
    + by rewrite (mic_position_name k Hk).
    + rewrite mic_position_unknown; [done|]. by rewrite mic_name_known.
Qed.

Lemma only_the_numbers_1_to_12_are_matched_witness :
  get_mic_match_with_sound_data twelve_rows (map mic_name [0; 12; 13; 100])
  = Return (Matched
      (omap (λ k, if decide (1 ≤ k ≤ 12) then tolist twelve_rows !! (k - 1) else None)
            [0; 12; 13; 100])
      (omap (λ k, if decide (1 ≤ k ≤ 12)
                  then create_microphone_locations_list !! (k - 1) else None)
            [0; 12; 13; 100])).
Proof.
  apply (only_the_numbers_1_to_12_are_matched twelve_rows [0; 12; 13; 100]).
  - by unfold clean.
  - reflexivity.
  - discriminate.
Defined.

(** ** The estimates of one subset, once more *)

Lemma split_and_conquer_one_each (self : SoundSourceLocation) (cx cy cz : R)
    (units : list vec3) :
  (0 < num_sources self)%Z → length units = Z.to_nat (num_sources self) →
  split_and_conquer self [cx; cy; cz] units
  = Return (concat (map (sweep (radius self) (cx, cy, cz)) units)).
Proof.
  intros Hn Hlen. unfold split_and_conquer.
  rewrite np_vsplit_one_each by done.
  cbn [mbind outcome_bind]. unfold range.
  rewrite Nat.sub_0_r, <- Hlen, <- (length_map (λ u, [u]) units).
  rewrite (for_each_update (λ part, ∃ u, part = [u])
             (λ part, match part with
                      | [u] => sweep (radius self) (cx, cy, cz) u
                      | _ => part
                      end)).
  - cbn [mbind outcome_bind]. by rewrite map_map.
  - intros i arr part Hi [u ->]. unfold index. rewrite Hi.
    cbn [mbind outcome_bind]. unfold sweep. simpl. by rewrite map_map.
  - apply Forall_fmap, Forall_true. intros u. by exists u.
Qed.

Section OneSubset.

Variable difference_of_arrivals :
  SoundSourceLocation → list row → list (list R) → outcome (list (R * R)).

(** After a successful match with at least one location, what is left of
    [get_estimates] is the adapter and the sweep. *)
Lemma get_estimates_matched
    (self : SoundSourceLocation) (data : ndarray) (mic_split : list string)
    (signal : list row) (locs : list (list R)) :
  get_mic_match_with_sound_data data mic_split = Return (Matched signal locs) →
  locs ≠ [] →
  get_estimates difference_of_arrivals self (Some data) mic_split
  = (angles ← difference_of_arrivals self signal locs;
     if (1 <? num_sources self)%Z then
       split_and_conquer self
         [mean (column 0 locs); mean (column 1 locs); mean (column 2 locs)]
         (map direction angles)
     else
       scaled ← broadcast_mul (radius self) (map direction angles);
       add_centroid scaled
         [mean (column 0 locs); mean (column 1 locs); mean (column 2 locs)]).
Proof.
  intros Hmatch Hlocs.
  destruct (get_mic_match_Matched_inv _ _ _ _ Hmatch) as (_ & Hargs & _ & _ & Hl).
  unfold get_estimates.
  destruct (py_not mic_split) eqn:E; [by apply py_not_true in E|].
  rewrite Hmatch. cbn [mbind outcome_bind].
  rewrite get_centroid_matched; [done|done|].
  rewrite Hl. apply matched_locations_three_coordinates.
Qed.

(** X7: a matrix that passes the checks but has another row count than 12
    makes [get_estimates] fail when it unpacks the returned message into two
    names: a [ValueError] that no longer says what went wrong; the adapter is
    not consulted. *)
Theorem get_estimates_cannot_unpack_a_mismatch
    (self : SoundSourceLocation) (data : ndarray) (mic_split : list string) :
  clean data → mic_split ≠ [] → len data ≠ 12 →
  ∃ msg, get_estimates difference_of_arrivals self (Some data) mic_split
         = Raise (ValueError msg)
         ∧ msg ≠ mismatch_message.
Proof.
  intros Hclean Hsplit Hlen. unfold get_estimates.
  destruct (py_not mic_split) eqn:E; [by apply py_not_true in E|].
  rewrite (get_mic_match_clean data mic_split Hclean Hsplit).
  destruct (Nat.eqb 12 (len data)) eqn:E'.
  - apply Nat.eqb_eq in E'. lia.
  - eexists. split; [reflexivity|discriminate].
Qed.

(** X8: when none of the requested names is a known microphone (and the
    12-row matrix passes the checks), nothing is matched and
    [get_estimates] fails with the centroid's empty-list [ValueError]; the
    adapter is not consulted. *)
Theorem get_estimates_needs_a_known_microphone
    (self : SoundSourceLocation) (data : ndarray) (mic_split : list string) :
  clean data → len data = 12 → mic_split ≠ [] → Forall (.∉ known_names) mic_split →
  get_mic_match_with_sound_data data mic_split = Return (Matched [] [])
  ∧ get_estimates difference_of_arrivals self (Some data) mic_split
    = Raise (ValueError "Error. Microphone location list is empty.").
Proof.
  intros Hclean Hlen Hsplit Hunknown.
  assert (get_mic_match_with_sound_data data mic_split = Return (Matched [] []))
    as Hmatch.
  { rewrite (get_mic_match_clean data mic_split Hclean Hsplit), Hlen.
    simpl Nat.eqb. cbv iota. clear Hsplit. f_equal.
    induction Hunknown as [|name names Hname _ IH]; [done|].
    rewrite !omap_cons. unfold signal_for at 1, location_for at 1.
    rewrite (mic_position_unknown name Hname). exact IH. }
  split; [done|]. unfold get_estimates.
  destruct (py_not mic_split) eqn:E; [by apply py_not_true in E|].
  by rewrite Hmatch.
Qed.

(** X9: with more than one source, a successful match with at least one
    location and as many recovered pairs of angles as there are sources,
    [get_estimates] returns the radius sweeps of the directions, one sweep
    after the other in the adapter's order, all around the centroid of the
    matched locations: [num_sources * len(radius)] points. *)
Theorem several_sources_estimates_sweep_each_direction
    (self : SoundSourceLocation) (data : ndarray) (mic_split : list string)
    (signal : list row) (locs : list (list R)) (angles : list (R * R)) :
  (1 < num_sources self)%Z →
  get_mic_match_with_sound_data data mic_split = Return (Matched signal locs) →
  locs ≠ [] →
  difference_of_arrivals self signal locs = Return angles →
  length angles = Z.to_nat (num_sources self) →
  get_estimates difference_of_arrivals self (Some data) mic_split
  = Return (concat (map (λ a, sweep (radius self)
                                (mean (column 0 locs), mean (column 1 locs),
                                 mean (column 2 locs))
                                (direction a)) angles))
  ∧ length (concat (map (λ a, sweep (radius self)
                                (mean (column 0 locs), mean (column 1 locs),
                                 mean (column 2 locs))
                                (direction a)) angles))
    = Z.to_nat (num_sources self) * length (radius self).
Proof.
  intros Hn Hmatch Hlocs Hdoa Hlen.
  rewrite (get_estimates_matched self data mic_split signal locs Hmatch Hlocs), Hdoa.
  cbn [mbind outcome_bind].
  destruct (Z.ltb_spec 1 (num_sources self)) as [_|?]; [|lia].
  rewrite split_and_conquer_one_each by (lia || by rewrite length_map).
  rewrite map_map. split; [done|].
  rewrite <- (map_map direction (sweep (radius self) _)), length_concat_sweeps.
  by rewrite length_map, Hlen.
Qed.

(** X10: the adapter decides whether the sweep is possible.  With more than
    one source, a number of recovered directions that is not a multiple of
    [num_sources] (one direction found for two sources, say) makes
    [get_estimates] fail with the [ValueError] of the unequal split; and,
    whatever the number of sources, no recovered direction at all makes it
    fail with a [ValueError] as soon as the radius grid has two values. *)
Theorem unexpected_number_of_directions_is_a_ValueError
    (self : SoundSourceLocation) (data : ndarray) (mic_split : list string)
    (signal : list row) (locs : list (list R)) (angles : list (R * R)) :
  get_mic_match_with_sound_data data mic_split = Return (Matched signal locs) →
  locs ≠ [] →
  difference_of_arrivals self signal locs = Return angles →
  ((1 < num_sources self)%Z →
   (Z.of_nat (length angles) mod num_sources self ≠ 0)%Z →
   get_estimates difference_of_arrivals self (Some data) mic_split
   = Raise (ValueError "array split does not result in an equal division"))
  ∧ (angles = [] → 2 ≤ length (radius self) →
     ∃ msg, get_estimates difference_of_arrivals self (Some data) mic_split
            = Raise (ValueError msg)).
Proof.
  intros Hmatch Hlocs Hdoa.
  rewrite (get_estimates_matched self data mic_split signal locs Hmatch Hlocs), Hdoa.
  cbn [mbind outcome_bind]. split.
  - intros Hn Hmod.
    destruct (Z.ltb_spec 1 (num_sources self)) as [_|?]; [|lia].
    unfold split_and_conquer, np_vsplit. rewrite length_map.
    destruct (Z.eqb_spec (num_sources self) 0) as [?|_]; [lia|].
    by destruct (Z.eqb_spec (Z.of_nat (length angles) mod num_sources self) 0).
  - intros -> Hradius.
    assert (broadcast_mul (radius self) []
            = Raise (ValueError "operands could not be broadcast together")) as Hmul.
    { unfold broadcast_mul. destruct (radius self) as [|r [|r' rs]]; simpl in *; [lia|lia|done]. }
    destruct (Z.ltb_spec 1 (num_sources self)) as [Hn|_].
    + unfold split_and_conquer, np_vsplit. simpl length.
      destruct (Z.eqb_spec (num_sources self) 0) as [?|_]; [lia|].
      rewrite Z.mod_0_l by lia. simpl negb. cbv iota.
      destruct (Z.ltb_spec (num_sources self) 0) as [?|_]; [lia|].
      cbn [mbind outcome_bind]. unfold range. rewrite Nat.sub_0_r.
      destruct (Z.to_nat (num_sources self)) as [|n] eqn:En; [lia|].
      clear Hmul.
      destruct (radius self) as [|r [|r' rs]]; simpl in *; [lia|lia|eauto].
    + simpl map. rewrite Hmul. eauto.
Qed.

(** X11: after a successful match with at least one known microphone, the
    adapter is given the matched signals and locations in the order of the
    request, and an exception of the adapter is the exception of
    [get_estimates], unchanged. *)
Theorem adapter_failure_is_the_failure_of_get_estimates
    (self : SoundSourceLocation) (data : ndarray) (mic_split : list string) (e : exn) :
  clean data → len data = 12 → Exists (.∈ known_names) mic_split →
  difference_of_arrivals self (omap (signal_for data) mic_split)
                         (omap location_for mic_split) = Raise e →
  get_estimates difference_of_arrivals self (Some data) mic_split = Raise e.
Proof.
  intros Hclean Hlen Hknown Hdoa.
  assert (mic_split ≠ []) as Hsplit by (intros ->; by apply Exists_nil in Hknown).
  rewrite (get_estimates_matched self data mic_split
             (omap (signal_for data) mic_split) (omap location_for mic_split)).
  - by rewrite Hdoa.
  - rewrite (get_mic_match_clean data mic_split Hclean Hsplit), Hlen. done.
  - apply Exists_exists in Hknown as (name & Hin & [loc Hloc]%location_for_known).
    intros Hnil. assert (loc ∈ omap location_for mic_split) as Hl.
    { apply list_elem_of_omap. by exists name. }
    rewrite Hnil in Hl. by apply elem_of_nil in Hl.
Qed.

End OneSubset.

Lemma get_estimates_cannot_unpack_a_mismatch_witness :
  ∃ msg, get_estimates (doa_constant 0 0) fresh
           (Some (Array2 [[PyFloat 0]; [PyFloat 1]])) ["mic1"; "mic2"]
         = Raise (ValueError msg)
         ∧ msg ≠ mismatch_message.
Proof.
  apply get_estimates_cannot_unpack_a_mismatch.
  - by unfold clean.
  - discriminate.
  - unfold len. simpl. lia.
Defined.

Lemma get_estimates_needs_a_known_microphone_witness :
  get_mic_match_with_sound_data twelve_rows ["mic0"; "Mic1"; "mic13"]
  = Return (Matched [] [])
  ∧ get_estimates (doa_constant 0 0) fresh (Some twelve_rows) ["mic0"; "Mic1"; "mic13"]
    = Raise (ValueError "Error. Microphone location list is empty.").
Proof.
  apply get_estimates_needs_a_known_microphone.
  - by unfold clean.
  - reflexivity.
  - discriminate.
  - compute_done.
Defined.

Lemma several_sources_estimates_sweep_each_direction_witness :
  get_estimates (doa_returning [(0, 0); (0, PI / 2)]%R)
                (init "data/" "MUSIC" 2 (Bool false) false)
                (Some twelve_rows) ["mic2"; "mic3"; "mic6"]
  = Return (concat (map (λ a, sweep (np_arange 500 0.001)
      (mean (column 0 [[-0.102235; -0.109982; 0.001524];
                       [-0.102235; -0.109982; -0.053340];
                       [-0.052197; -0.109982; 0.001524]]%R),
       mean (column 1 [[-0.102235; -0.109982; 0.001524];
                       [-0.102235; -0.109982; -0.053340];
                       [-0.052197; -0.109982; 0.001524]]%R),
       mean (column 2 [[-0.102235; -0.109982; 0.001524];
                       [-0.102235; -0.109982; -0.053340];
                       [-0.052197; -0.109982; 0.001524]]%R))
      (direction a)) [(0, 0); (0, PI / 2)]%R)).
Proof.
  destruct (several_sources_estimates_sweep_each_direction
              (doa_returning [(0, 0); (0, PI / 2)]%R)
              (init "data/" "MUSIC" 2 (Bool false) false)
              twelve_rows ["mic2"; "mic3"; "mic6"]
              [Signal [PyInt 2]; Signal [PyInt 3]; Signal [PyInt 6]]
              [[-0.102235; -0.109982; 0.001524];
               [-0.102235; -0.109982; -0.053340];
               [-0.052197; -0.109982; 0.001524]]%R
              [(0, 0); (0, PI / 2)]%R) as [H _].
  - reflexivity.
  - vm_compute. reflexivity.
  - discriminate.
  - reflexivity.
  - reflexivity.
  - exact H.
Defined.

Lemma unexpected_number_of_directions_is_a_ValueError_witness :
  get_estimates (doa_returning [(0, 0)]%R) (init "data/" "MUSIC" 2 (Bool false) false)
                (Some twelve_rows) ["mic2"; "mic3"; "mic6"]
  = Raise (ValueError "array split does not result in an equal division")
  ∧ ∃ msg, get_estimates (doa_returning []) fresh (Some twelve_rows)
             ["mic2"; "mic3"; "mic6"]
           = Raise (ValueError msg).
Proof.
  destruct (unexpected_number_of_directions_is_a_ValueError
              (doa_returning [(0, 0)]%R) (init "data/" "MUSIC" 2 (Bool false) false)
              twelve_rows ["mic2"; "mic3"; "mic6"]
              [Signal [PyInt 2]; Signal [PyInt 3]; Signal [PyInt 6]]
              [[-0.102235; -0.109982; 0.001524];
               [-0.102235; -0.109982; -0.053340];
               [-0.052197; -0.109982; 0.001524]]%R [(0, 0)]%R) as [Hsplit _];
    [vm_compute; reflexivity|discriminate|reflexivity|].
  destruct (unexpected_number_of_directions_is_a_ValueError
              (doa_returning []) fresh
              twelve_rows ["mic2"; "mic3"; "mic6"]
              [Signal [PyInt 2]; Signal [PyInt 3]; Signal [PyInt 6]]
              [[-0.102235; -0.109982; 0.001524];
               [-0.102235; -0.109982; -0.053340];
               [-0.052197; -0.109982; 0.001524]]%R []) as [_ Hnone];
    [vm_compute; reflexivity|discriminate|reflexivity|].
  split.
  - apply Hsplit; [reflexivity|discriminate].
  - apply Hnone; [reflexivity|]. simpl. lia.
Defined.

Lemma adapter_failure_is_the_failure_of_get_estimates_witness :
  get_estimates (doa_failing (ValueError "no peak")) fresh (Some twelve_rows)
                ["mic0"; "mic3"]
  = Raise (ValueError "no peak").
Proof.
  apply adapter_failure_is_the_failure_of_get_estimates.
  - by unfold clean.
  - reflexivity.
  - apply Exists_cons. right. apply Exists_cons. left. compute_done.
  - reflexivity.
Defined.

(** ** Splitting and sweeping, once more *)

(** X12: [split_and_conquer] fails where [np.vsplit] refuses the split: no
    source gives a [ZeroDivisionError], a number of unit vectors that is
    not a multiple of [num_sources] the [ValueError] of the unequal split,
    and a negative [num_sources] a [ValueError] also when it divides the
    number of vectors; nothing is scaled in any of these cases. *)
Theorem split_and_conquer_refuses_an_unequal_split
    (self : SoundSourceLocation) (the_centroid : list R) (units : list vec3) :
  (num_sources self = 0%Z →
   ∃ msg, split_and_conquer self the_centroid units = Raise (ZeroDivisionError msg))
  ∧ (num_sources self ≠ 0%Z →
     (Z.of_nat (length units) mod num_sources self ≠ 0)%Z →
     split_and_conquer self the_centroid units
     = Raise (ValueError "array split does not result in an equal division"))
  ∧ ((num_sources self < 0)%Z →
     ∃ msg, split_and_conquer self the_centroid units = Raise (ValueError msg)).
Proof.
  unfold split_and_conquer, np_vsplit. split; [|split].
  - intros ->. simpl. eauto.
  - intros Hn Hmod.
    destruct (Z.eqb_spec (num_sources self) 0) as [?|_]; [done|].
    by destruct (Z.eqb_spec (Z.of_nat (length units) mod num_sources self) 0).
  - intros Hn.
    destruct (Z.eqb_spec (num_sources self) 0) as [?|_]; [lia|].
    destruct (Z.eqb_spec (Z.of_nat (length units) mod num_sources self) 0);
      simpl; [|eauto].
    destruct (Z.ltb_spec (num_sources self) 0) as [_|?]; [|lia]. simpl. eauto.
Qed.

Lemma split_and_conquer_refuses_an_unequal_split_witness :
  split_and_conquer (init "data/" "MUSIC" 2 (Bool false) false) [0; 0; 0]%R
                    [(1, 0, 0); (0, 1, 0); (0, 0, 1)]%R
  = Raise (ValueError "array split does not result in an equal division")
  ∧ (∃ msg, split_and_conquer (init "data/" "MUSIC" 0 (Bool false) false) [0; 0; 0]%R
                              [(1, 0, 0)]%R = Raise (ZeroDivisionError msg))
  ∧ (∃ msg, split_and_conquer (init "data/" "MUSIC" (-1) (Bool false) false) [0; 0; 0]%R
                              [(1, 0, 0)]%R = Raise (ValueError msg)).
Proof.
  destruct (split_and_conquer_refuses_an_unequal_split
              (init "data/" "MUSIC" 2 (Bool false) false) [0; 0; 0]%R
              [(1, 0, 0); (0, 1, 0); (0, 0, 1)]%R) as (_ & H2 & _).
  destruct (split_and_conquer_refuses_an_unequal_split
              (init "data/" "MUSIC" 0 (Bool false) false) [0; 0; 0]%R
              [(1, 0, 0)]%R) as (H0 & _ & _).
  destruct (split_and_conquer_refuses_an_unequal_split
              (init "data/" "MUSIC" (-1) (Bool false) false) [0; 0; 0]%R
              [(1, 0, 0)]%R) as (_ & _ & Hneg).
  split; [apply H2; [discriminate|by vm_compute]|].
  split; [by apply H0|by apply Hneg].
Defined.

(** X13: for one source the two branches of [get_estimates] agree: with
    [num_sources = 1], [split_and_conquer] computes, for any array of unit
    vectors and any centroid, exactly what the single-source branch
    computes ([radius * cartesian.T + centroid]), failures included. *)
Theorem split_and_conquer_of_one_source_is_the_plain_sweep
    (self : SoundSourceLocation) (the_centroid : list R) (units : list vec3) :
  num_sources self = 1%Z →
  split_and_conquer self the_centroid units
  = (scaled ← broadcast_mul (radius self) units; add_centroid scaled the_centroid).
Proof.
  intros Hone. unfold split_and_conquer, np_vsplit. rewrite Hone.
  simpl Z.eqb. cbv iota. rewrite Z.mod_1_r. simpl.
  change (Nat.divmod (length units) 0 0 0).1 with (length units / 1)%nat.
  rewrite Nat.div_1_r, Nat.add_0_r. unfold slice.
  rewrite Nat.sub_0_r, drop_0, firstn_all.
  destruct (broadcast_mul (radius self) units) as [scaled|e]; [|done]. simpl.
  destruct (add_centroid scaled the_centroid) as [moved|e]; [|done]. simpl.
  by rewrite app_nil_r.
Qed.

Lemma split_and_conquer_of_one_source_is_the_plain_sweep_witness :
  split_and_conquer fresh [1; 2; 3]%R [(1, 0, 0)]%R
  = (scaled ← broadcast_mul (radius fresh) [(1, 0, 0)]%R; add_centroid scaled [1; 2; 3]%R)
  ∧ ∃ msg, split_and_conquer fresh [1; 2]%R [(1, 0, 0)]%R = Raise (ValueError msg).
Proof.
  split.
  - by apply split_and_conquer_of_one_source_is_the_plain_sweep.
  - rewrite (split_and_conquer_of_one_source_is_the_plain_sweep fresh [1; 2]%R
               [(1, 0, 0)]%R eq_refl).
    eexists. reflexivity.
Defined.

Lemma direction_is_a_unit_vector (angles : R * R) :
  dist2 (direction angles) (0, 0, 0)%R = 1%R.
Proof.
  destruct angles as [a b]. unfold dist2, direction.
  pose proof (sin2_cos2 a) as Ha. pose proof (sin2_cos2 b) as Hb.
  unfold Rsqr in Ha, Hb. nra.
Qed.

Lemma sweep_at_the_radius (radius : list R) (c : vec3) (angles : R * R)
    (i : nat) (r : R) (p : vec3) :
  radius !! i = Some r → sweep radius c (direction angles) !! i = Some p →
  dist2 p c = (r * r)%R.
Proof.
  intros Hr Hp. unfold sweep in Hp. rewrite list_lookup_fmap, Hr in Hp.
  injection Hp as <-. pose proof (direction_is_a_unit_vector angles) as Hu.
  destruct (direction angles) as [[x y] z]. destruct c as [[cx cy] cz].
  unfold dist2 in *. simpl. nra.
Qed.

Lemma np_arange_bounds (n : nat) (step r : R) :
  (0 <= step)%R → r ∈ np_arange n step → (0 <= r <= INR (n - 1) * step)%R.
Proof.
  intros Hstep (i & -> & Hi)%list_elem_of_fmap. apply elem_of_seq in Hi.
  assert (0 <= INR i)%R by apply pos_INR.
  assert (INR i <= INR (n - 1))%R by (apply le_INR; lia).
  split; nra.
Qed.

Section AtTheRadius.

Variable difference_of_arrivals :
  SoundSourceLocation → list row → list (list R) → outcome (list (R * R)).

(** X14: the recovered direction is a unit vector, so the estimates of one
    source lie at the radius values from the centroid of the matched
    microphones: the i-th point is at distance [radius_i] from it (squared
    distance [radius_i^2]); with the grid of the constructor every point is
    less than 0.5 away. *)
Theorem single_source_estimates_lie_at_the_radius
    (self : SoundSourceLocation) (data : ndarray) (mic_split : list string)
    (signal : list row) (locs : list (list R)) (angles : R * R)
    (points : list vec3) :
  num_sources self = 1%Z →
  get_mic_match_with_sound_data data mic_split = Return (Matched signal locs) →
  locs ≠ [] →
  difference_of_arrivals self signal locs = Return [angles] →
  get_estimates difference_of_arrivals self (Some data) mic_split = Return points →
  (∀ i r p, radius self !! i = Some r → points !! i = Some p →
     dist2 p (mean (column 0 locs), mean (column 1 locs), mean (column 2 locs))
     = (r * r)%R)
  ∧ (radius self = np_arange 500 0.001 →
     ∀ p, p ∈ points →
       (dist2 p (mean (column 0 locs), mean (column 1 locs), mean (column 2 locs))
        < 0.5 * 0.5)%R).
Proof.
  intros Hone Hmatch Hlocs Hdoa Hpoints.
  destruct (get_estimates_single_source difference_of_arrivals self data mic_split
              signal locs angles Hone Hmatch Hlocs Hdoa) as [_ Hest].
  rewrite Hest in Hpoints. injection Hpoints as <-. split.
  - intros i r p Hr Hp. by eapply sweep_at_the_radius.
  - intros Hgrid p (i & Hp)%list_elem_of_lookup_1.
    assert (is_Some (radius self !! i)) as [r Hr].
    { apply lookup_lt_is_Some. apply lookup_lt_Some in Hp.
      unfold sweep in Hp. by rewrite length_map in Hp. }
    rewrite (sweep_at_the_radius _ _ _ _ _ _ Hr Hp).
    apply list_elem_of_lookup_2 in Hr. rewrite Hgrid in Hr.
    apply np_arange_bounds in Hr; [|lra].
    change (INR (500 - 1)) with (INR 499) in Hr.
    replace (INR 499) with 499%R in Hr by (rewrite INR_IZR_INZ; reflexivity).
    nra.
Qed.

End AtTheRadius.

Lemma single_source_estimates_lie_at_the_radius_witness :
  Forall (λ p, (dist2 p (centroid_of
                  [[-0.102235; -0.109982; 0.001524];
                   [-0.102235; -0.109982; -0.053340];
                   [-0.052197; -0.109982; 0.001524]]) < 0.5 * 0.5)%R)
         (sweep (np_arange 500 0.001)
            (centroid_of [[-0.102235; -0.109982; 0.001524];
                          [-0.102235; -0.109982; -0.053340];
                          [-0.052197; -0.109982; 0.001524]]%R)
            (direction (0, 0)%R)).
Proof.
  destruct (single_source_estimates_lie_at_the_radius (doa_constant 0 0) fresh
              twelve_rows ["mic2"; "mic3"; "mic6"]
              [Signal [PyInt 2]; Signal [PyInt 3]; Signal [PyInt 6]]
              [[-0.102235; -0.109982; 0.001524];
               [-0.102235; -0.109982; -0.053340];
               [-0.052197; -0.109982; 0.001524]]%R (0, 0)%R
              (sweep (np_arange 500 0.001)
                 (centroid_of [[-0.102235; -0.109982; 0.001524];
                               [-0.102235; -0.109982; -0.053340];
                               [-0.052197; -0.109982; 0.001524]]%R)
                 (direction (0, 0)%R))) as [_ H].
  - reflexivity.
  - vm_compute. reflexivity.
  - discriminate.
  - reflexivity.
  - apply (get_estimates_single_source (doa_constant 0 0) fresh twelve_rows
             ["mic2"; "mic3"; "mic6"]
             [Signal [PyInt 2]; Signal [PyInt 3]; Signal [PyInt 6]]);
      [reflexivity|vm_compute; reflexivity|discriminate|reflexivity].
  - apply Forall_forall. exact (H eq_refl).
Defined.

(** ** The scheduler for any number of subsets *)

Lemma combinations_nat_nil {A} (pool : list A) (r : nat) :
  length pool < r → combinations_nat pool r = [].
Proof.
  revert r. induction pool as [|x pool IH]; intros [|r] Hr; simpl in *;
    [lia|done|lia|].
  by rewrite (IH r), (IH (S r)) by lia.
Qed.

Lemma combinations_nat_few {A} (pool : list A) (r : nat) :
  length pool ≤ r → length (combinations_nat pool r) ≤ 1.
Proof.
  revert r. induction pool as [|x pool IH]; intros [|r] Hr; simpl in *;
    [lia|lia|lia|].
  rewrite length_app, length_map, (combinations_nat_nil pool (S r)) by lia.
  specialize (IH r). simpl. lia.
Qed.

Lemma combinations_nat_sublist {A} (pool : list A) (r : nat) (s : list A) :
  s ∈ combinations_nat pool r → s `sublist_of` pool ∧ length s = r.
Proof.
  revert r s. induction pool as [|x pool IH]; intros [|r] s Hs; simpl in Hs.
  - apply list_elem_of_singleton in Hs as ->. split; [constructor|done].
  - by apply elem_of_nil in Hs.
  - apply list_elem_of_singleton in Hs as ->. split; [apply sublist_nil_l|done].
  - apply elem_of_app in Hs as [Hs|Hs].
    + apply list_elem_of_fmap in Hs as (s' & -> & Hs').
      destruct (IH _ _ Hs') as [Hsub Hlen].
      split; [by apply sublist_skip|simpl; lia].
    + destruct (IH _ _ Hs) as [Hsub Hlen]. split; [by apply sublist_cons|done].
Qed.

Lemma mics_known (self : SoundSourceLocation) :
  mics self ⊆ known_names ∧ length (mics self) = 6.
Proof. unfold mics. destruct (s1_bool self); split; compute_done. Qed.

Lemma dispatched_subseteq {A} (mic_list : list A) : dispatched mic_list ⊆ mic_list.
Proof.
  intros s Hs. unfold dispatched in Hs.
  apply list_elem_of_bind in Hs as (j & Hs & _).
  apply list_elem_of_bind in Hs as (b & Hs & _).
  destruct (mic_list !! (b * (length mic_list / 5) + j)) as [s'|] eqn:E; simpl in Hs.
  - apply list_elem_of_singleton in Hs as ->. by eapply list_elem_of_lookup_2.
  - by apply elem_of_nil in Hs.
Qed.

Lemma length_bind_constant {A B} (f : A → list B) (l : list A) (c : nat) :
  Forall (λ a, length (f a) = c) l → length (l ≫= f) = length l * c.
Proof.
  induction 1 as [|a l Ha _ IH]; [done|].
  change ((a :: l) ≫= f) with (f a ++ (l ≫= f)).
  rewrite length_app, Ha, IH. simpl. lia.
Qed.

Lemma length_dispatched {A} (mic_list : list A) :
  length (dispatched mic_list) = 5 * (length mic_list / 5).
Proof.
  unfold dispatched.
  rewrite (length_bind_constant _ _ 5).
  - rewrite length_seq. lia.
  - apply Forall_forall. intros j Hj. apply elem_of_seq in Hj.
    rewrite (length_bind_constant _ _ 1); [by rewrite length_seq|].
    apply Forall_forall. intros b Hb. apply elem_of_seq in Hb.
    pose proof (Nat.Div0.mul_div_le (length mic_list) 5) as Hdiv.
    destruct (lookup_lt_is_Some_2 mic_list (b * (length mic_list / 5) + j))
      as [s Hs]; [nia|].
    by rewrite Hs.
Qed.

Lemma mapM_outcome_Return {A B} (f : A → outcome B) (g : A → B) (l : list A) :
  Forall (λ a, f a = Return (g a)) l → mapM f l = Return (map g l).
Proof.
  induction 1 as [|a l Ha _ IH]; [done|].
  simpl. by rewrite Ha, IH.
Qed.

Section ManySubsets.

Variable difference_of_arrivals :
  SoundSourceLocation → list row → list (list R) → outcome (list (R * R)).

(** With at least 5 subsets, [combinations_number] is one of 1 .. 5. *)
Lemma five_subsets (self : SoundSourceLocation) :
  (0 ≤ combinations_number self)%Z →
  5 ≤ length (combinations_nat (mics self) (Z.to_nat (combinations_number self))) →
  ∃ r, combinations_number self = Z.of_nat r ∧ 1 ≤ r ≤ 5.
Proof.
  intros Hk Hlen. exists (Z.to_nat (combinations_number self)).
  split; [lia|].
  destruct (mics_known self) as [_ Hsix].
  destruct (Z.to_nat (combinations_number self)) as [|r];
    [destruct (mics self); simpl in Hlen; lia|].
  destruct (decide (S r ≤ 5)) as [|Hbig]; [lia|].
  pose proof (combinations_nat_few (mics self) (S r)). lia.
Qed.

Lemma process_potential_estimates_dispatched
    (self : SoundSourceLocation) (data : option ndarray) :
  (0 ≤ combinations_number self)%Z →
  5 ≤ length (combinations_nat (mics self) (Z.to_nat (combinations_number self))) →
  process_potential_estimates difference_of_arrivals self data
  = estimates_in_order (get_estimates difference_of_arrivals self data)
      (dispatched (combinations_nat (mics self)
                     (Z.to_nat (combinations_number self)))).
Proof.
  intros Hk Hlen. destruct (five_subsets self Hk Hlen) as (r & Hr & Hr1).
  unfold process_potential_estimates, estimates_in_order, dispatched, mics.
  rewrite Hr. clear Hk Hlen Hr.
  set (worker := get_estimates difference_of_arrivals self data). clearbody worker.
  assert (r = 1 ∨ r = 2 ∨ r = 3 ∨ r = 4 ∨ r = 5) as [->|[->|[->|[->| ->]]]] by lia;
    (destruct (s1_bool self); vm_compute;
     repeat match goal with
            | |- context [worker ?s] => destruct (worker s); [|reflexivity]
            end;
     reflexivity).
Qed.

(** X15: whatever [combinations_number] is, as long as there are at least
    5 subsets, [process_potential_estimates] estimates the subsets in the
    order round by round: with [splits = len(mic_list) // 5], round [j]
    takes subset [b * splits + j] for the batches [b = 0 .. 4], and the
    result is the estimates in that order, moved by the centre of the room.
    The subsets dispatched are the first [5 * splits] ones, each once; the
    [len(mic_list) % 5] last ones (one subset for [combinations_number] 1
    or 5) are never estimated. *)
Theorem process_potential_estimates_dispatches_five_batches
    (self : SoundSourceLocation) (data : option ndarray) :
  (0 ≤ combinations_number self)%Z →
  5 ≤ length (combinations_nat (mics self) (Z.to_nat (combinations_number self))) →
  process_potential_estimates difference_of_arrivals self data
  = estimates_in_order (get_estimates difference_of_arrivals self data)
      (dispatched (combinations_nat (mics self)
                     (Z.to_nat (combinations_number self))))
  ∧ dispatched (combinations_nat (mics self) (Z.to_nat (combinations_number self)))
    ≡ₚ take (5 * (length (combinations_nat (mics self)
                            (Z.to_nat (combinations_number self))) / 5))
            (combinations_nat (mics self) (Z.to_nat (combinations_number self)))
  ∧ NoDup (dispatched (combinations_nat (mics self)
                         (Z.to_nat (combinations_number self)))).
Proof.
  intros Hk Hlen. split; [by apply process_potential_estimates_dispatched|].
  destruct (five_subsets self Hk Hlen) as (r & Hr & Hr1).
  rewrite Hr, Nat2Z.id. unfold mics. clear Hk Hlen Hr.
  assert (r = 1 ∨ r = 2 ∨ r = 3 ∨ r = 4 ∨ r = 5) as [->|[->|[->|[->| ->]]]] by lia;
    (destruct (s1_bool self); split; compute_done).
Qed.

(** X16: [process_potential_estimates] needs at least 5 subsets, and finds
    out before it looks at the data: a negative [combinations_number] is the
    [ValueError] of [itertools.combinations], and 0 or more than 5 (one
    subset or none, so [splits = 0]) a [ZeroDivisionError]; the data, the
    adapter and the flag of the object play no role. *)
Theorem process_potential_estimates_needs_five_subsets
    (self : SoundSourceLocation) (data : option ndarray) :
  ((combinations_number self < 0)%Z →
   process_potential_estimates difference_of_arrivals self data
   = Raise (ValueError "r must be non-negative"))
  ∧ ((combinations_number self = 0 ∨ 6 ≤ combinations_number self)%Z →
     ∃ msg, process_potential_estimates difference_of_arrivals self data
            = Raise (ZeroDivisionError msg)).
Proof.
  unfold process_potential_estimates, combinations. split.
  - intros Hk. by destruct (Z.ltb_spec (combinations_number self) 0) as [_|?]; [|lia].
  - intros Hk. destruct (Z.ltb_spec (combinations_number self) 0) as [?|_]; [lia|].
    cbn [mbind outcome_bind].
    assert (length (combinations_nat (mics self)
                      (Z.to_nat (combinations_number self))) / 5 = 0) as ->.
    { apply Nat.div_small. destruct (mics_known self) as [_ Hsix].
      destruct Hk as [-> | Hk].
      - destruct (mics self); simpl; lia.
      - pose proof (combinations_nat_few (mics self)
                      (Z.to_nat (combinations_number self))). lia. }
    simpl. eauto.
Qed.

(** X17: without data there is no result: [process_potential_estimates]
    raises for [None], whatever the object is; so a file that lacks the
    variable of its source makes the step of the generator for this cycle
    raise, and the generator is finished. *)
Theorem missing_variable_fails_the_cycle
    (loadmat : string → outcome (gmap string ndarray))
    (self : SoundSourceLocation) (b : bool) (source cycle : nat)
    (vars : gmap string ndarray) (rest : generator) :
  recovered self = Bool b → 1 ≤ source ≤ 2 → cycle < 24 →
  loadmat (filepath self +:+ cycle_file b source cycle) = Return vars →
  vars !! cycle_key source = None →
  raises (process_potential_estimates difference_of_arrivals self None)
  ∧ ∃ e, next difference_of_arrivals loadmat self (cycle_name source cycle :: rest)
         = (flag_after self (cycle_name source cycle), [], Raised e).
Proof.
  intros Hrec Hs Hc Hvars Hkey.
  assert (∀ self', raises (process_potential_estimates difference_of_arrivals self' None))
    as Hnone.
  { intros self'.
    destruct (Z.ltb_spec (combinations_number self') 0) as [Hneg|Hk].
    { unfold process_potential_estimates, combinations.
      by destruct (Z.ltb_spec (combinations_number self') 0) as [_|?]; [|lia]. }
    destruct (decide (5 ≤ length (combinations_nat (mics self')
                                    (Z.to_nat (combinations_number self')))))
      as [Hlen|Hlen].
    - destruct (five_subsets self' Hk Hlen) as (r & Hr & Hr1).
      unfold process_potential_estimates, mics. rewrite Hr.
      assert (r = 1 ∨ r = 2 ∨ r = 3 ∨ r = 4 ∨ r = 5) as [->|[->|[->|[->| ->]]]] by lia;
        by destruct (s1_bool self').
    - unfold process_potential_estimates, combinations.
      destruct (Z.ltb_spec (combinations_number self') 0) as [?|_]; [lia|].
      cbn [mbind outcome_bind].
      replace (length (combinations_nat (mics self')
                         (Z.to_nat (combinations_number self'))) / 5) with 0; [done|].
      symmetry. apply Nat.div_small. lia. }
  split; [apply Hnone|].
  rewrite next_cons. unfold visit, get_sound_data.
  assert (recovered (flag_after self (cycle_name source cycle)) = Bool b
          ∧ filepath (flag_after self (cycle_name source cycle)) = filepath self)
    as [-> ->].
  { unfold flag_after. by destruct (bool_decide _). }
  rewrite (source_name_dict_lookup b _ _ Hs Hc), Hvars. cbn [mbind outcome_bind].
  rewrite Hkey.
  specialize (Hnone (flag_after self (cycle_name source cycle))).
  destruct (process_potential_estimates _ _ None) as [?|e]; [done|eauto].
Qed.

Lemma signal_for_known (data : ndarray) (name : string) :
  len data = 12 → name ∈ known_names → is_Some (signal_for data name).
Proof.
  intros Hlen (i & Hi & Hlt)%mic_position_known. unfold signal_for. rewrite Hi.
  simpl. apply lookup_lt_is_Some. unfold len in Hlen. lia.
Qed.

(** X18: no subset of the scheduler asks for a microphone that is not
    there: every subset of [combinations(mics, combinations_number)] is a
    selection of the pool in the order of the pool, and on a 12-row matrix
    that passes the checks [get_mic_match_with_sound_data] finds a signal
    and a location for each of its [combinations_number] microphones. *)
Theorem every_subset_of_the_pool_is_matched_completely
    (self : SoundSourceLocation) (data : ndarray) (subset : list string) :
  clean data → len data = 12 → (0 < combinations_number self)%Z →
  subset ∈ combinations_nat (mics self) (Z.to_nat (combinations_number self)) →
  subset `sublist_of` mics self
  ∧ get_mic_match_with_sound_data data subset
    = Return (Matched (omap (signal_for data) subset) (omap location_for subset))
  ∧ length (omap (signal_for data) subset) = Z.to_nat (combinations_number self)
  ∧ length (omap location_for subset) = Z.to_nat (combinations_number self).
Proof.
  intros Hclean Hlen Hk Hin.
  destruct (combinations_nat_sublist _ _ _ Hin) as [Hsub Hr].
  assert (Forall (.∈ known_names) subset) as Hknown.
  { apply Forall_forall. intros name Hname.
    apply (proj1 (mics_known self)). by eapply sublist_subseteq. }
  split; [done|]. split.
  - rewrite get_mic_match_clean; [by rewrite Hlen|done|].
    intros ->. simpl in Hr. lia.
  - split.
    + rewrite <- Hr. apply omap_total.
      eapply Forall_impl; [exact Hknown|]. intros name. by apply signal_for_known.
    + rewrite <- Hr. apply omap_total.
      eapply Forall_impl; [exact Hknown|]. apply location_for_known.
Qed.

(** X19: end to end for one source: with a 12-row matrix that passes the
    checks and an adapter that recovers one direction per subset,
    [process_potential_estimates] returns, subset after subset in the order
    of dispatch, the radius sweep from the centroid of the subset along its
    direction, moved by the centre of the room: [5 * splits * len(radius)]
    points in all. *)
Theorem process_potential_estimates_returns_the_sweeps_in_order
    (self : SoundSourceLocation) (data : ndarray)
    (angles_of : list row → list (list R) → R * R) :
  num_sources self = 1%Z →
  (0 ≤ combinations_number self)%Z →
  5 ≤ length (combinations_nat (mics self) (Z.to_nat (combinations_number self))) →
  clean data → len data = 12 →
  (∀ signal locs, difference_of_arrivals self signal locs
                  = Return [angles_of signal locs]) →
  process_potential_estimates difference_of_arrivals self (Some data)
  = Return (map (vadd center_of_room)
      (concat (map (λ subset,
                      sweep (radius self) (centroid_of (omap location_for subset))
                        (direction (angles_of (omap (signal_for data) subset)
                                              (omap location_for subset))))
                 (dispatched (combinations_nat (mics self)
                                (Z.to_nat (combinations_number self)))))))
  ∧ ∃ points,
      process_potential_estimates difference_of_arrivals self (Some data)
      = Return points
      ∧ length points
        = 5 * (length (combinations_nat (mics self)
                         (Z.to_nat (combinations_number self))) / 5)
          * length (radius self).
Proof.
  intros Hone Hk Hlen Hclean Hrows Hdoa.
  set (mic_list := combinations_nat (mics self) (Z.to_nat (combinations_number self)))
    in *.
  set (estimate := λ subset,
         sweep (radius self) (centroid_of (omap location_for subset))
           (direction (angles_of (omap (signal_for data) subset)
                                 (omap location_for subset)))).
  assert (process_potential_estimates difference_of_arrivals self (Some data)
          = Return (map (vadd center_of_room)
                      (concat (map estimate (dispatched mic_list))))) as Heq.
  { rewrite process_potential_estimates_dispatched by done.
    fold mic_list. unfold estimates_in_order.
    rewrite (mapM_outcome_Return _ estimate).
    - cbn [mbind outcome_bind].
      rewrite (np_array3_same_length _ (length (radius self))); [done| |].
      + intros Hnil. apply (f_equal length) in Hnil.
        rewrite length_map, length_dispatched in Hnil.
        pose proof (Nat.div_le_lower_bound (length mic_list) 5 1).
        change (length (@nil (list vec3))) with 0 in Hnil. lia.
      + apply Forall_fmap, Forall_true. intros subset. unfold estimate, sweep.
        simpl. by rewrite length_map.
    - apply Forall_forall. intros subset Hsubset.
      apply dispatched_subseteq in Hsubset.
      destruct (combinations_nat_sublist _ _ _ Hsubset) as [Hsub Hr].
      destruct (five_subsets self Hk Hlen) as (r & Hkr & Hr1).
      assert (Forall (.∈ known_names) subset) as Hknown.
      { apply Forall_forall. intros name Hname.
        apply (proj1 (mics_known self)). by eapply sublist_subseteq. }
      assert (subset ≠ []) as Hne.
      { intros ->. simpl in Hr. lia. }
      apply (get_estimates_single_source difference_of_arrivals self data subset
               (omap (signal_for data) subset) (omap location_for subset)); [done| | |].
      + rewrite get_mic_match_clean by done. by rewrite Hrows.
      + intros Hnil. apply (f_equal length) in Hnil.
        rewrite (proj1 (omap_total location_for subset
                          (Forall_impl _ _ _ Hknown location_for_known))) in Hnil.
        simpl in Hnil. lia.
      + apply Hdoa. }
  split; [exact Heq|]. eexists. split; [exact Heq|].
  rewrite length_map, (length_concat_same_length _ (length (radius self))).
  - by rewrite length_map, length_dispatched.
  - apply Forall_fmap, Forall_true. intros subset. unfold estimate, sweep.
    simpl. by rewrite length_map.
Qed.

End ManySubsets.

Lemma process_potential_estimates_dispatches_five_batches_witness :
  process_potential_estimates (doa_constant 0 0) five_of_six None
  = estimates_in_order (get_estimates (doa_constant 0 0) five_of_six None)
      (dispatched (combinations_nat (mics five_of_six) 5))
  ∧ dispatched (combinations_nat (mics five_of_six) 5)
    ≡ₚ take 5 (combinations_nat (mics five_of_six) 5).
Proof.
  destruct (process_potential_estimates_dispatches_five_batches (doa_constant 0 0)
              five_of_six None) as (Heq & Hperm & _).
  - by vm_compute.
  - vm_compute. lia.
  - split; [exact Heq|exact Hperm].
Defined.

Lemma process_potential_estimates_needs_five_subsets_witness :
  process_potential_estimates (doa_constant 0 0) (set_combinations_number fresh (-1)) None
  = Raise (ValueError "r must be non-negative")
  ∧ ∃ msg, process_potential_estimates (doa_constant 0 0)
             (set_combinations_number fresh 7) (Some twelve_rows)
           = Raise (ZeroDivisionError msg).
Proof.
  destruct (process_potential_estimates_needs_five_subsets (doa_constant 0 0)
              (set_combinations_number fresh (-1)) None) as [Hneg _].
  destruct (process_potential_estimates_needs_five_subsets (doa_constant 0 0)
              (set_combinations_number fresh 7) (Some twelve_rows)) as [_ Hfew].
  split; [apply Hneg; reflexivity|apply Hfew; right; by vm_compute].
Defined.

Lemma missing_variable_fails_the_cycle_witness :
  raises (process_potential_estimates (doa_constant 0 0) fresh None)
  ∧ ∃ e, next (doa_constant 0 0) loadmat_empty fresh [cycle_name 1 0]
         = (flag_after fresh (cycle_name 1 0), [], Raised e).
Proof.
  apply (missing_variable_fails_the_cycle (doa_constant 0 0) loadmat_empty fresh
           false 1 0 ∅ []); [reflexivity|lia|lia|reflexivity|reflexivity].
Defined.

Lemma every_subset_of_the_pool_is_matched_completely_witness :
  get_mic_match_with_sound_data twelve_rows ["mic2"; "mic3"; "mic6"]
  = Return (Matched (omap (signal_for twelve_rows) ["mic2"; "mic3"; "mic6"])
                    (omap location_for ["mic2"; "mic3"; "mic6"]))
  ∧ length (omap (signal_for twelve_rows) ["mic2"; "mic3"; "mic6"]) = 3.
Proof.
  destruct (every_subset_of_the_pool_is_matched_completely fresh twelve_rows
              ["mic2"; "mic3"; "mic6"]) as (_ & Hmatch & Hlen & _).
  - exact twelve_rows_clean.
  - reflexivity.
  - reflexivity.
  - vm_compute. left.
  - split; [exact Hmatch|exact Hlen].
Defined.

Lemma process_potential_estimates_returns_the_sweeps_in_order_witness :
  ∃ points,
    process_potential_estimates (doa_constant 0 0) fresh (Some twelve_rows)
    = Return points
    ∧ length points = 20 * 500.
Proof.
  destruct (process_potential_estimates_returns_the_sweeps_in_order
              (doa_constant 0 0) fresh twelve_rows (λ _ _, (0, 0)%R))
    as [_ (points & Hpoints & Hlen)].
  - reflexivity.
  - by vm_compute.
  - vm_compute. lia.
  - exact twelve_rows_clean.
  - reflexivity.
  - intros signal locs. reflexivity.
  - exists points. split; [exact Hpoints|]. rewrite Hlen. vm_compute. reflexivity.
Defined.

(** ** A subset count that is not a multiple of 5 *)

Section IndivisibleCount.

Variable difference_of_arrivals :
  SoundSourceLocation → list row → list (list R) → outcome (list (R * R)).


End IndivisibleCount.


(** ** The generator, step by step *)

Lemma sound_list_lookup (i : nat) (name : string) :
  sound_list !! i = Some name → name = cycle_name (1 + i / 24) (i mod 24) ∧ i < 48.
Proof.
  intros Hi.
  do 48 (destruct i as [|i];
         [split; [|lia]; vm_compute in Hi; injection Hi as <-; reflexivity|]).
  apply lookup_lt_Some in Hi. change (length sound_list) with 48 in Hi. lia.
Qed.

Lemma flag_after_first_pass (self : SoundSourceLocation) (i : nat) :
  i < 48 →
  foldl flag_after self (take (S i) sound_list)
  = if i <? 24 then self else set_s1_bool self false.
Proof.
  intros Hi. do 48 (destruct i as [|i]; [reflexivity|]). lia.
Qed.

Section YieldOrder.

Variable difference_of_arrivals :
  SoundSourceLocation → list row → list (list R) → outcome (list (R * R)).

Variable loadmat : string → outcome (gmap string ndarray).

Lemma drain_until_the_first_failure (names : generator) :
  ∀ self fuel, length names < fuel →
    ∃ (items : list (string * list vec3)) (e : option exn),
      drain difference_of_arrivals loadmat fuel self names
      = (foldl flag_after self
           (take (length items + match e with Some _ => 1 | None => 0 end) names), items, e)
      ∧ items.*1 `prefix_of` names
      ∧ (∀ i name points, items !! i = Some (name, points) →
           visit difference_of_arrivals loadmat
             (foldl flag_after self (take (S i) names)) name = Return points)
      ∧ match e with
        | None => items.*1 = names
        | Some err =>
            ∃ name, names !! length items = Some name
                    ∧ visit difference_of_arrivals loadmat
                        (foldl flag_after self (take (S (length items)) names)) name
                      = Raise err
        end.
Proof.
  induction names as [|name rest IH]; intros self [|fuel] Hfuel; simpl in Hfuel;
    try lia.
  - exists [], None. by repeat split.
  - cbn [drain]. rewrite next_cons.
    destruct (visit difference_of_arrivals loadmat (flag_after self name) name)
      as [points|err] eqn:Hvisit.
    + destruct (IH (flag_after self name) fuel) as (items & e & Hdrain & Hpre & Hall & He);
        [lia|].
      rewrite Hdrain. exists ((name, points) :: items), e. split; [done|].
      split; [by apply prefix_cons|]. split.
      * intros [|i] name' points' Hi; simpl in Hi.
        -- by injection Hi as <- <-.
        -- by apply Hall.
      * destruct e as [err|]; [done|]. rewrite fmap_cons. simpl. by rewrite He.
    + exists [], (Some err). split; [done|]. split; [apply prefix_nil|].
      split; [done|]. by exists name.
Qed.

(** X20: [list(generate_potential_sources())] for any list of names left:
    the pairs come in the order of the names, the i-th one computed by
    [get_sound_data] and [process_potential_estimates] on the object as the
    names up to the i-th have left it; the first cycle that fails ends the
    run with its exception, after the pairs of the cycles before it, and
    the cycles after it are never looked at. *)
Theorem the_generator_yields_in_order_until_the_first_failure
    (self : SoundSourceLocation) (names : generator) :
  ∃ self' (items : list (string * list vec3)) (e : option exn),
    list_of difference_of_arrivals loadmat self names = (self', items, e)
    ∧ self' = foldl flag_after self (take (length items + match e with Some _ => 1 | None => 0 end) names)
    ∧ items.*1 `prefix_of` names
    ∧ (∀ i name points, items !! i = Some (name, points) →
         visit difference_of_arrivals loadmat
           (foldl flag_after self (take (S i) names)) name = Return points)
    ∧ (e = None → items.*1 = names)
    ∧ (∀ err, e = Some err →
         ∃ name, names !! length items = Some name
                 ∧ visit difference_of_arrivals loadmat
                     (foldl flag_after self (take (S (length items)) names)) name
                   = Raise err).
Proof.
  destruct (drain_until_the_first_failure names self (S (length names)))
    as (items & e & Hdrain & Hpre & Hall & He); [lia|].
  eexists _, items, e. split; [exact Hdrain|]. split; [done|].
  split; [done|]. split; [done|]. split.
  - by intros ->.
  - intros err ->. exact He.
Qed.

(** X21: on the names of [generate_potential_sources] the i-th pair is
    that of source [1 + i // 24] and cycle [i % 24]; the 24 cycles of S1 are
    estimated on the object as it was given (so with the pool its flag
    selects), the 24 cycles of S2 with the flag cleared, that is with the
    pool of S2; a run that gets through leaves the flag cleared. *)
Theorem the_first_pass_estimates_each_source_in_turn (self : SoundSourceLocation) :
  ∃ self' items e,
    list_of difference_of_arrivals loadmat self generate_potential_sources
    = (self', items, e)
    ∧ (∀ i name points, items !! i = Some (name, points) →
         name = cycle_name (1 + i / 24) (i mod 24)
         ∧ visit difference_of_arrivals loadmat
             (if i <? 24 then self else set_s1_bool self false) name
           = Return points
         ∧ mics (if i <? 24 then self else set_s1_bool self false)
           = if (i <? 24) && s1_bool self
             then map mic_name [2; 3; 6; 7; 10; 11]
             else map mic_name [1; 2; 5; 6; 9; 10])
    ∧ (e = None → length items = 48 ∧ self' = set_s1_bool self false).
Proof.
  destruct (drain_until_the_first_failure generate_potential_sources self
              (S (length generate_potential_sources)))
    as (items & e & Hdrain & Hpre & Hall & He); [lia|].
  eexists _, items, e. split; [exact Hdrain|]. split.
  - intros i name points Hi.
    assert (generate_potential_sources !! i = Some name) as Hname.
    { eapply prefix_lookup_Some; [|exact Hpre].
      by rewrite list_lookup_fmap, Hi. }
    destruct (sound_list_lookup _ _ Hname) as [Hn Hlt].
    specialize (Hall i name points Hi).
    unfold generate_potential_sources in Hall.
    rewrite (flag_after_first_pass self i Hlt) in Hall.
    split; [done|]. split; [done|].
    unfold mics. destruct (i <? 24); [by destruct (s1_bool self)|done].
  - intros ->. assert (length items = 48) as Hlen.
    { rewrite <- (length_fmap fst), He. reflexivity. }
    split; [done|]. rewrite Hlen. reflexivity.
Qed.

(** X22: [run] is the first step of the generator under another name: it
    reads the data of ["S1_Cycle0"] and estimates them on the object as it
    is, exactly like the first [next] of [generate_potential_sources];
    what it returns next to the estimates are the names of two cycles,
    although the second one is never read. *)
Theorem run_is_the_first_step_of_the_generator (self : SoundSourceLocation) :
  run difference_of_arrivals loadmat self
  = (points ← visit difference_of_arrivals loadmat self (cycle_name 1 0);
     Return ([cycle_name 1 0; cycle_name 1 1], points))
  ∧ (∀ points,
       run difference_of_arrivals loadmat self
       = Return ([cycle_name 1 0; cycle_name 1 1], points)
       ↔ ∃ rest, next difference_of_arrivals loadmat self generate_potential_sources
                 = (self, rest, Yield (cycle_name 1 0, points)))
  ∧ (∀ e, run difference_of_arrivals loadmat self = Raise e
          ↔ next difference_of_arrivals loadmat self generate_potential_sources
            = (self, [], Raised e)).
Proof.
  assert (run difference_of_arrivals loadmat self
          = (points ← visit difference_of_arrivals loadmat self (cycle_name 1 0);
             Return ([cycle_name 1 0; cycle_name 1 1], points))) as Hrun.
  { unfold run, visit. simpl.
    destruct (get_sound_data loadmat self _) as [data|e]; [|done]. simpl.
    by destruct (process_potential_estimates _ _ _). }
  assert (next difference_of_arrivals loadmat self generate_potential_sources
          = match visit difference_of_arrivals loadmat self (cycle_name 1 0) with
            | Return points =>
                (self, tail generate_potential_sources, Yield (cycle_name 1 0, points))
            | Raise e => (self, [], Raised e)
            end) as Hnext by reflexivity.
  split; [exact Hrun|]. rewrite Hrun, Hnext.
  destruct (visit difference_of_arrivals loadmat self (cycle_name 1 0)) as [pts|err];
    cbn [mbind outcome_bind]; split.
  - intros points. split.
    + intros [= ->]. eauto.
    + intros [rest Heq]. congruence.
  - intros e. split; intros Heq; congruence.
  - intros points. split; [congruence|intros [rest Heq]; congruence].
  - intros e. split; intros Heq; congruence.
Qed.

End YieldOrder.
